(** * PDF content-bookmark generator: the core class [PDFBookmarkGenerator]

    A shallow embedding of [src/core/bookmark_generator.py]: the TOC text
    parser, the bookmark store with its undo log, the page-offset function
    and the outline writer, followed by the properties of the specification
    that concern them. *)

From Stdlib Require Import ZArith Ascii String.
From stdpp Require Import base numbers list option gmap sorting.

Local Open Scope Z_scope.

(* ===================================================================== *)
(** * Part I: definitions                                                  *)
(* ===================================================================== *)

(** ** Python strings

    A Python [str] is a sequence of Unicode code points.  Literals of the
    source are written as UTF-8 string literals and decoded by [u]. *)

Abbreviation py_str := (list N).

Module Utf8.

Definition cont (b : N) : N := N.land b 63.

(** Decoding of well-formed UTF-8; [fuel] bounds the number of bytes. *)
Fixpoint decode (fuel : nat) (bs : list N) : py_str :=
  match fuel with
  | O => []
  | S fuel =>
      match bs with
      | [] => []
      | b0 :: t =>
          if (b0 <? 128)%N then b0 :: decode fuel t
          else if (b0 <? 224)%N then
            match t with
            | b1 :: t => (N.land b0 31 * 64 + cont b1)%N :: decode fuel t
            | _ => []
            end
          else if (b0 <? 240)%N then
            match t with
            | b1 :: b2 :: t =>
                (N.land b0 15 * 4096 + cont b1 * 64 + cont b2)%N :: decode fuel t
            | _ => []
            end
          else
            match t with
            | b1 :: b2 :: b3 :: t =>
                (N.land b0 7 * 262144 + cont b1 * 4096 + cont b2 * 64 + cont b3)%N
                  :: decode fuel t
            | _ => []
            end
      end
  end.

Definition bytes (s : string) : list N :=
  List.map N_of_ascii (list_ascii_of_string s).

End Utf8.

(** [u "..."] is the Python string written between the quotes. *)
Definition u (s : string) : py_str :=
  let bs := Utf8.bytes s in Utf8.decode (length bs) bs.

(** The single code point of a one-character literal. *)
Definition chr (s : string) : N := List.hd 0%N (u s).

Definition LF : N := 10.

(** ** Character classes of the Python runtime (Unicode 14 tables)

    [str.strip], [str.lstrip] and the regular expression class [\s] use
    the same whitespace predicate; [\d] and [int()] use the decimal digits
    (general category Nd), which come in runs of ten starting at a zero. *)

Definition in_range (lo hi c : N) : bool := ((lo <=? c) && (c <=? hi))%N.

Definition isspace (c : N) : bool :=
  in_range 0x09 0x0d c || in_range 0x1c 0x20 c || (c =? 0x85)%N || (c =? 0xa0)%N
  || (c =? 0x1680)%N || in_range 0x2000 0x200a c || (c =? 0x2028)%N
  || (c =? 0x2029)%N || (c =? 0x202f)%N || (c =? 0x205f)%N || (c =? 0x3000)%N.

Definition decimal_zeros : list N :=
  [ 0x30; 0x660; 0x6f0; 0x7c0; 0x966; 0x9e6; 0xa66; 0xae6; 0xb66; 0xbe6;
    0xc66; 0xce6; 0xd66; 0xde6; 0xe50; 0xed0; 0xf20; 0x1040; 0x1090; 0x17e0;
    0x1810; 0x1946; 0x19d0; 0x1a80; 0x1a90; 0x1b50; 0x1bb0; 0x1c40; 0x1c50;
    0xa620; 0xa8d0; 0xa900; 0xa9d0; 0xa9f0; 0xaa50; 0xabf0; 0xff10; 0x104a0;
    0x10d30; 0x11066; 0x110f0; 0x11136; 0x111d0; 0x112f0; 0x11450; 0x114d0;
    0x11650; 0x116c0; 0x11730; 0x118e0; 0x11950; 0x11c50; 0x11d50; 0x11da0;
    0x16a60; 0x16ac0; 0x16b50; 0x1d7ce; 0x1d7d8; 0x1d7e2; 0x1d7ec; 0x1d7f6;
    0x1e140; 0x1e2f0; 0x1e950; 0x1fbf0 ]%N.

(** The value of a decimal digit, [None] for any other character. *)
Definition digit_value (c : N) : option Z :=
  match List.find (fun z => in_range z (z + 9) c) decimal_zeros with
  | Some z => Some (Z.of_N (c - z))
  | None => None
  end.

Definition isdigit (c : N) : bool := bool_decide (is_Some (digit_value c)).

(** The number a non-empty run of decimal digits stands for. *)
Definition int_of_digits (s : py_str) : Z :=
  List.fold_left (fun acc c => 10 * acc + default 0 (digit_value c)) s 0.

(** The longest run of digits [int] converts: the interpreter's default
    limit ([sys.get_int_max_str_digits()]). *)
Definition int_max_str_digits : Z := 4300.

(** ** String methods *)

Fixpoint lstrip (s : py_str) : py_str :=
  match s with
  | c :: t => if isspace c then lstrip t else s
  | [] => []
  end.

Definition rstrip (s : py_str) : py_str := rev (lstrip (rev s)).

Definition strip (s : py_str) : py_str := rstrip (lstrip s).

(** [s.split(sep)] for a one-character separator. *)
Fixpoint split_on (sep : N) (s : py_str) : list py_str :=
  match s with
  | [] => [[]]
  | c :: t =>
      if (c =? sep)%N then [] :: split_on sep t
      else match split_on sep t with
           | w :: ws => (c :: w) :: ws
           | [] => [[c]]
           end
  end.

Fixpoint startswith (s p : py_str) : bool :=
  match p, s with
  | [], _ => true
  | a :: p', b :: s' => (a =? b)%N && startswith s' p'
  | _ :: _, [] => false
  end.

(** [p in s] *)
Fixpoint contains (s p : py_str) : bool :=
  startswith s p || match s with [] => false | _ :: t => contains t p end.

(** [s.count(c)] for a one-character argument. *)
Definition count_char (c : N) (s : py_str) : Z :=
  Z.of_nat (length (List.filter (N.eqb c) s)).

(** [s[a:b]] for non-negative bounds. *)
Definition slice (s : py_str) (a b : nat) : py_str := take (b - a) (drop a s).

(** ** Regular expressions

    The fragment of Python's [re] the parser uses, with its backtracking
    semantics: greedy bounded repetition, ordered alternation, capturing
    groups, [^] and [$] without MULTILINE. *)

Module Re.

Inductive regex :=
| Eps
| Cls (p : N -> bool)                       (* one character of a class *)
| Seq (a b : regex)
| Alt (a b : regex)
| Rep (lo : nat) (hi : option nat) (a : regex)   (* greedy a{lo,hi} *)
| Grp (n : nat) (a : regex)                 (* capturing group n *)
| Bol                                       (* ^ *)
| Eol.                                      (* $ *)

(** Matcher state: characters consumed so far, remaining input, and the
    spans of the groups closed so far (most recent first). *)
Record mstate := MState {
  pos : nat;
  rest : py_str;
  caps : list (nat * (nat * nat))
}.

Definition below (cnt : nat) (hi : option nat) : bool :=
  match hi with Some h => (cnt <? h)%nat | None => true end.

(** [run r s k]: match [r] at [s], then continue with [k]; the first
    success in backtracking order is the result.  A repetition stops
    iterating on an iteration that consumes nothing, so the number of
    iterations is bounded by the remaining input. *)
Fixpoint run (r : regex) (s : mstate) (k : mstate -> option mstate) : option mstate :=
  match r with
  | Eps => k s
  | Cls p =>
      match rest s with
      | c :: t => if p c then k (MState (S (pos s)) t (caps s)) else None
      | [] => None
      end
  | Seq a b => run a s (fun s' => run b s' k)
  | Alt a b =>
      match run a s k with
      | Some m => Some m
      | None => run b s k
      end
  | Rep lo hi a =>
      (fix iter (fuel cnt : nat) (s : mstate) : option mstate :=
         let stop := if (lo <=? cnt)%nat then k s else None in
         match fuel with
         | O => stop
         | S fuel =>
             let more :=
               if below cnt hi then
                 run a s (fun s' =>
                   if (length (rest s') <? length (rest s))%nat
                   then iter fuel (S cnt) s' else None)
               else None in
             match more with
             | Some m => Some m
             | None => stop
             end
         end) (length (rest s)) 0%nat s
  | Grp n a => run a s (fun s' => k (MState (pos s') (rest s') ((n, (pos s, pos s')) :: caps s')))
  | Bol => if (pos s =? 0)%nat then k s else None
  | Eol =>
      match rest s with
      | [] => k s
      | [c] => if (c =? LF)%N then k s else None
      | _ => None
      end
  end.

(** A match object: span of the whole match and of the groups. *)
Record match_obj := Match {
  subject : py_str;
  m_start : nat;
  m_end : nat;
  m_caps : list (nat * (nat * nat))
}.

Definition match_at (r : regex) (str : py_str) (i : nat) : option match_obj :=
  match run r (MState i (drop i str) []) Some with
  | Some s => Some (Match str i (pos s) (caps s))
  | None => None
  end.

(** [re.match(r, str)] *)
Definition match_ (r : regex) (str : py_str) : option match_obj := match_at r str 0.

(** [re.search(r, str)]: the leftmost start position that matches. *)
Definition search (r : regex) (str : py_str) : option match_obj :=
  List.fold_right
    (fun i later => match match_at r str i with Some m => Some m | None => later end)
    None (seq 0 (S (length str))).

(** [m.group(n)]; every group the parser reads took part in the match. *)
Definition group (m : match_obj) (n : nat) : py_str :=
  match n with
  | O => slice (subject m) (m_start m) (m_end m)
  | _ =>
      match List.find (fun c => (fst c =? n)%nat) (m_caps m) with
      | Some (_, (a, b)) => slice (subject m) a b
      | None => []
      end
  end.

(** [re.sub(r, '', str)] for a pattern that matches no empty string:
    the leftmost non-overlapping matches are removed. *)
Fixpoint sub_loop (fuel : nat) (r : regex) (str : py_str) (i : nat) : py_str :=
  match fuel with
  | O => []
  | S fuel =>
      match match_at r str i with
      | Some m =>
          if (i <? m_end m)%nat then sub_loop fuel r str (m_end m)
          else match str !! i with
               | Some c => c :: sub_loop fuel r str (S i)
               | None => []
               end
      | None =>
          match str !! i with
          | Some c => c :: sub_loop fuel r str (S i)
          | None => []
          end
      end
  end.

Definition sub_empty (r : regex) (str : py_str) : py_str :=
  sub_loop (S (length str)) r str 0.

(** Pattern syntax. *)
Definition lit (c : string) : regex := Cls (N.eqb (chr c)).
Definition one_of (cs : string) : regex := Cls (fun c => bool_decide (c ∈ u cs)).
Definition digit : regex := Cls isdigit.                          (* \d *)
Definition space : regex := Cls isspace.                          (* \s *)
Definition dot : regex := Cls (fun c => negb (c =? LF)%N).        (* . *)
Definition star (a : regex) : regex := Rep 0 None a.
Definition plus (a : regex) : regex := Rep 1 None a.
Definition at_least (n : nat) (a : regex) : regex := Rep n None a.
Definition between (lo hi : nat) (a : regex) : regex := Rep lo (Some hi) a.

End Re.

(** ** Data model *)

(** One outline entry: the dict [{'title', 'page', 'level'}]. *)
Record bookmark := Bookmark {
  title : py_str;
  page : option Z;
  level : Z
}.

Definition set_title (t : py_str) (b : bookmark) : bookmark := Bookmark t (page b) (level b).
Definition set_page (p : option Z) (b : bookmark) : bookmark := Bookmark (title b) p (level b).
Definition set_level (l : Z) (b : bookmark) : bookmark := Bookmark (title b) (page b) l.

(** A state saved by [save_state]. *)
Record snapshot := Snapshot {
  s_bookmarks : list bookmark;
  s_original_bookmarks : list bookmark;
  s_offset : Z
}.

(** The fields of [PDFBookmarkGenerator] the operations below use.  The
    entries of [bookmarks] and of [original_bookmarks] are separate dict
    objects (every path of the class that fills the two lists copies the
    entries), so each list holds its entries by value. *)
Record generator := Generator {
  uploaded_file : option py_str;
  bookmarks : list bookmark;
  original_bookmarks : list bookmark;
  offset : Z;
  history : list snapshot            (* deque(maxlen=5), oldest first *)
}.

Definition with_bookmarks (l : list bookmark) (g : generator) : generator :=
  Generator (uploaded_file g) l (original_bookmarks g) (offset g) (history g).
Definition with_original (l : list bookmark) (g : generator) : generator :=
  Generator (uploaded_file g) (bookmarks g) l (offset g) (history g).
Definition with_offset (o : Z) (g : generator) : generator :=
  Generator (uploaded_file g) (bookmarks g) (original_bookmarks g) o (history g).
Definition with_history (h : list snapshot) (g : generator) : generator :=
  Generator (uploaded_file g) (bookmarks g) (original_bookmarks g) (offset g) h.

(** ** Methods as state transformers that may raise *)

Inductive exn :=
| IndexError
| ValueError
| PrintError      (* what [print] raises when the console refuses the text,
                     [UnicodeEncodeError] for one *)
| ReadError       (* what opening or reading the uploaded file raises *)
| OutputError.    (* what creating or writing the output file raises *)

Inductive result (A : Type) :=
| Ok (a : A)
| Raise (e : exn).
Arguments Ok {A} a.
Arguments Raise {A} e.

(** [int(s)] on a non-empty run of decimal digits: a run of more than
    [int_max_str_digits] digits is refused with [ValueError]. *)
Definition py_int (s : py_str) : result Z :=
  if int_max_str_digits <? Z.of_nat (length s) then Raise ValueError
  else Ok (int_of_digits s).

(** A method body: from the object's state to its outcome and the state
    it leaves behind (also when it raises). *)
Definition M (A : Type) : Type := generator -> result A * generator.

Definition ret {A} (a : A) : M A := fun g => (Ok a, g).

Definition bind {A B} (m : M A) (f : A -> M B) : M B :=
  fun g => match m g with
           | (Ok a, g') => f a g'
           | (Raise e, g') => (Raise e, g')
           end.

Definition raise {A} (e : exn) : M A := fun g => (Raise e, g).
Definition get : M generator := fun g => (Ok g, g).
Definition modify (f : generator -> generator) : M unit := fun g => (Ok tt, f g).

Declare Scope py_scope.
Delimit Scope py_scope with py.
Notation "x <- m ;; k" := (bind m (fun x => k))
  (at level 100, m at next level, right associativity) : py_scope.
Notation "m ;; k" := (bind m (fun _ => k))
  (at level 100, right associativity) : py_scope.
Local Open Scope py_scope.

(** [for x in xs: body x] *)
Fixpoint for_each {A} (xs : list A) (body : A -> M unit) : M unit :=
  match xs with
  | [] => ret tt
  | x :: rest => body x ;; for_each rest body
  end.

Definition when (c : bool) (m : M unit) : M unit := if c then m else ret tt.

(** *** Python list indexing *)

Definition len {A} (l : list A) : Z := Z.of_nat (length l).

(** The position [l[i]] denotes; negative indices count from the end. *)
Definition norm_index {A} (l : list A) (i : Z) : option nat :=
  if (0 <=? i) && (i <? len l) then Some (Z.to_nat i)
  else if (- len l <=? i) && (i <? 0) then Some (Z.to_nat (len l + i))
  else None.

(** The two parallel lists. *)
Inductive which := Current | Original.

Definition the_list (w : which) (g : generator) : list bookmark :=
  match w with Current => bookmarks g | Original => original_bookmarks g end.

Definition put_list (w : which) (l : list bookmark) : generator -> generator :=
  match w with Current => with_bookmarks l | Original => with_original l end.

(** [self.<w>[i]] *)
Definition getitem (w : which) (i : Z) : M bookmark :=
  fun g => match norm_index (the_list w g) i ≫= (the_list w g !!.) with
           | Some b => (Ok b, g)
           | None => (Raise IndexError, g)
           end.

(** [self.<w>[i] = b] *)
Definition setitem (w : which) (i : Z) (b : bookmark) : M unit :=
  fun g => match norm_index (the_list w g) i with
           | Some n => (Ok tt, put_list w (<[n := b]> (the_list w g)) g)
           | None => (Raise IndexError, g)
           end.

(** [del self.<w>[i]] *)
Definition delitem (w : which) (i : Z) : M unit :=
  fun g => match norm_index (the_list w g) i with
           | Some n => (Ok tt, put_list w (delete n (the_list w g)) g)
           | None => (Raise IndexError, g)
           end.

(** [self.<w>[i][field] = v], with the field given by its setter. *)
Definition setfield (w : which) (i : Z) (f : bookmark -> bookmark) : M unit :=
  b <- getitem w i ;; setitem w i (f b).

(** [self.<w>.append(b)] *)
Definition append (w : which) (b : bookmark) : M unit :=
  modify (fun g => put_list w (the_list w g ++ [b]) g).

(** *** Undo log and draft *)

Definition maxlen : nat := 5.

(** [deque.append] on a deque bounded by [maxlen]. *)
Definition deque_append {A} (d : list A) (x : A) : list A :=
  let d' := d ++ [x] in drop (length d' - maxlen) d'.

Definition save_state : M unit :=
  modify (fun g =>
    let state := Snapshot (bookmarks g) (original_bookmarks g) (offset g) in
    with_history (deque_append (history g) state) g).

(** [save_draft] serialises the state to the draft file and catches every
    exception: it neither changes the object nor raises. *)
Definition save_draft : M unit := ret tt.

Definition undo : M bool :=
  g <- get ;;
  if 1 <? len (history g) then
    modify (fun g => with_history (removelast (history g)) g) ;;   (* history.pop() *)
    g <- get ;;
    match norm_index (history g) (-1) ≫= (history g !!.) with
    | Some prev_state =>
        modify (with_bookmarks (s_bookmarks prev_state)) ;;
        modify (with_original (s_original_bookmarks prev_state)) ;;
        modify (with_offset (s_offset prev_state)) ;;
        save_draft ;;
        ret true
    | None => raise IndexError
    end
  else ret false.

(** ** The TOC parser: [parse_toc_text] *)

Module Parser.
Import Re.

(** The pattern "^(#{1,4})\s+(.+)" *)
Definition markdown_re : regex :=
  Seq Bol (Seq (Grp 1 (between 1 4 (lit "#"))) (Seq (plus space) (Grp 2 (plus dot)))).

(** The page pattern: digits [(\d+)] as group 1, then the non-capturing
    group of [\s*], then [$]. *)
Definition page_re : regex :=
  Seq (Grp 1 (plus digit)) (Seq (star space) Eol).

(** The pattern "\.{3,}|\s{2,}$" *)
Definition leader_re : regex :=
  Alt (at_least 3 (lit ".")) (Seq (at_least 2 space) Eol).

(** The pattern "^(\d+\.)*\d+" *)
Definition chapter_re : regex :=
  Seq Bol (Seq (star (Grp 1 (Seq (plus digit) (lit ".")))) (plus digit)).

(** The pattern "^[一二三四五六七八九十百千万]+[、:]" *)
Definition chinese_numeral_re : regex :=
  Seq Bol (Seq (plus (one_of "一二三四五六七八九十百千万")) (one_of "、:")).

(** The pattern "^[IVXLCDM]+[\.、:]" *)
Definition roman_numeral_re : regex :=
  Seq Bol (Seq (plus (one_of "IVXLCDM")) (one_of ".、:")).

Definition prefixes : list py_str :=
  [u "#"; u "*"; u "-"; u "•"; u "★"; u "☆"; u "▶"; u "►"; u "→"; u "⇒"].

(** The [for prefix in prefixes: if line.startswith(prefix): ...; break]
    loop: the first prefix the line starts with is cut off and the rest
    stripped. *)
Definition cut_prefix (line : py_str) : py_str :=
  match List.find (startswith line) prefixes with
  | Some prefix => strip (drop (length prefix) line)
  | None => line
  end.

(** The [while any(line.startswith(prefix) ...)] loop.  Every round
    shortens the line, so [length line] rounds are enough. *)
Fixpoint cut_prefixes (fuel : nat) (line : py_str) : py_str :=
  match fuel with
  | O => line
  | S fuel =>
      if existsb (startswith line) prefixes
      then cut_prefixes fuel (cut_prefix line)
      else line
  end.

(** [any(keyword in title for keyword in keywords)] *)
Definition any_keyword (title : py_str) (keywords : list py_str) : bool :=
  existsb (contains title) keywords.

(** First pass: the set of Markdown heading depths of the non-blank lines. *)
Definition markdown_levels (lines : list py_str) : gset Z :=
  List.fold_left
    (fun levels line =>
       let line := strip line in
       if bool_decide (line = []) then levels
       else match match_ markdown_re line with
            | Some m => {[ len (group m 1) ]} ∪ levels
            | None => levels
            end)
    lines ∅.

(** [{level: idx for idx, level in enumerate(sorted(list(markdown_levels)))}] *)
Definition level_mapping (levels : gset Z) : gmap Z Z :=
  let sorted_levels := merge_sort Z.le (elements levels) in
  list_to_map (imap (fun idx level => (level, Z.of_nat idx)) sorted_levels).

(** The body of the second loop for one stripped, non-blank line: the
    entry it appends, or the exception of [int(page_match.group(1))],
    which nothing catches. *)
Definition parse_line (mapping : gmap Z Z) (line : py_str) : result bookmark :=
  let original_line := line in
  let line := cut_prefixes (length line) line in
  (* page number at the end of the line *)
  let page_match := search page_re line in
  match (match page_match with
         | Some m => match py_int (group m 1) with
                     | Ok n => Ok (Some n)
                     | Raise e => Raise e
                     end
         | None => Ok None
         end) with
  | Raise e => Raise e
  | Ok page_num =>
  let title := match page_match with
               | Some m => strip (take (m_start m) line)
               | None => line
               end in
  let title := strip (sub_empty leader_re title) in
  let level := 0 in
  (* 1: indentation *)
  let original_title_part := cut_prefix original_line in
  let leading_spaces := len original_title_part - len (lstrip original_title_part) in
  let level := if 0 <? leading_spaces then Z.min 3 (leading_spaces `div` 2) else level in
  (* 2: dotted chapter numbering *)
  let level := match search chapter_re title with
               | Some m => let dots := count_char (chr ".") (group m 0) in Z.max level dots
               | None => level
               end in
  (* 3: Markdown heading *)
  let markdown_match := match_ markdown_re original_line in
  let level := match markdown_match with
               | Some m => let original_level := len (group m 1) in
                           default (original_level - 1) (mapping !! original_level)
               | None => level
               end in
  let title := match markdown_match with
               | Some m => group m 2
               | None => title
               end in
  (* 4, 5: Chinese and Roman numerals *)
  let level := match search chinese_numeral_re title with
               | Some _ => Z.max level 0
               | None => level
               end in
  let level := match search roman_numeral_re title with
               | Some _ => Z.max level 0
               | None => level
               end in
  (* 6: keywords *)
  let level := if any_keyword title [u "前言"; u "序言"; u "附录"; u "参考文献"; u "索引"]
               then Z.max level 0 else level in
  let level := if any_keyword title [u "章节"; u "章"; u "篇"]
               then Z.max level 0 else level in
  let level := if any_keyword title [u "节"; u "项"; u "条"]
               then Z.min (level + 1) 3 else level in
  let level := if any_keyword title [u "小节"; u "子项"; u "子条"]
               then Z.min (level + 2) 3 else level in
  Ok (Bookmark title page_num level)
  end.

(** The second loop, from the list [bookmarks] built so far: an
    exception of a line ends it. *)
Fixpoint parse_loop (mapping : gmap Z Z) (lines : list py_str)
    (bookmarks : list bookmark) : result (list bookmark) :=
  match lines with
  | [] => Ok bookmarks
  | line :: lines =>
      let line := strip line in
      if bool_decide (line = []) then parse_loop mapping lines bookmarks
      else match parse_line mapping line with
           | Ok bookmark => parse_loop mapping lines (bookmarks ++ [bookmark])
           | Raise e => Raise e
           end
  end.

(** The list [bookmarks] the two loops build from the text. *)
Definition parse_lines (toc_text : py_str) : result (list bookmark) :=
  let lines := split_on LF (strip toc_text) in
  let mapping := level_mapping (markdown_levels lines) in
  parse_loop mapping lines [].

End Parser.

(** [parse_toc_text]: the snapshot is taken first, so it is in the log
    also when a line raises; [original_bookmarks] is assigned only after
    the last line. *)
Definition parse_toc_text (toc_text : py_str) : M (list bookmark) :=
  save_state ;;
  match Parser.parse_lines toc_text with
  | Raise e => raise e
  | Ok bookmarks =>
      modify (with_original bookmarks) ;;
      save_draft ;;
      ret bookmarks
  end.

(** ** The store operations *)

Definition in_bounds (index : Z) (g : generator) : bool :=
  (0 <=? index) && (index <? len (bookmarks g)).

Definition add_bookmark (title : py_str) (page : option Z) (level : Z) : M unit :=
  save_state ;;
  append Current (Bookmark title page level) ;;
  append Original (Bookmark title page level) ;;
  save_draft.

Definition remove_bookmark (index : Z) : M unit :=
  g <- get ;;
  when (in_bounds index g)
    (save_state ;;
     delitem Current index ;;
     delitem Original index ;;
     save_draft).

Definition update_bookmark (index : Z) (title : option py_str)
    (page : option Z) (level : option Z) : M unit :=
  g <- get ;;
  when (in_bounds index g)
    (save_state ;;
     match title with
     | Some title =>
         setfield Current index (set_title title) ;;
         setfield Original index (set_title title)
     | None => ret tt
     end ;;
     match page with
     | Some page =>
         setfield Current index (set_page (Some page)) ;;
         setfield Original index (set_page (Some page))
     | None => ret tt
     end ;;
     match level with
     | Some level =>
         setfield Current index (set_level level) ;;
         setfield Original index (set_level level)
     | None => ret tt
     end ;;
     save_draft).

(** [self.<w>[i], self.<w>[j] = self.<w>[j], self.<w>[i]] *)
Definition swap_items (w : which) (i j : Z) : M unit :=
  x <- getitem w j ;;
  y <- getitem w i ;;
  setitem w i x ;;
  setitem w j y.

Definition move_bookmark (index : Z) (direction : py_str) : M unit :=
  g <- get ;;
  when (in_bounds index g)
    (save_state ;;
     (if bool_decide (direction = u "up") && (0 <? index) then
        swap_items Current index (index - 1) ;;
        swap_items Original index (index - 1)
      else if bool_decide (direction = u "down") && (index <? len (bookmarks g) - 1) then
        swap_items Current index (index + 1) ;;
        swap_items Original index (index + 1)
      else ret tt) ;;
     save_draft).

Definition clamp_level (l : Z) : Z := Z.max 0 (Z.min 3 l).

(** The body of [for index in indices]. *)
Definition batch_round (title_prefix : option py_str)
    (page_offset : option Z) (level_offset : option Z) (index : Z) : M unit :=
  g <- get ;;
  when (in_bounds index g)
    (match title_prefix with
     | Some title_prefix =>
         b <- getitem Current index ;;
         setfield Current index (set_title (title_prefix ++ title b)) ;;
         b <- getitem Original index ;;
         setfield Original index (set_title (title_prefix ++ title b))
     | None => ret tt
     end ;;
     match page_offset with
     | Some page_offset =>
         b <- getitem Current index ;;
         match page b with
         | Some p => setfield Current index (set_page (Some (p + page_offset)))
         | None => ret tt
         end ;;
         b <- getitem Original index ;;
         match page b with
         | Some p => setfield Original index (set_page (Some (p + page_offset)))
         | None => ret tt
         end
     | None => ret tt
     end ;;
     match level_offset with
     | Some level_offset =>
         b <- getitem Current index ;;
         let new_level := level b + level_offset in
         setfield Current index (set_level (clamp_level new_level)) ;;
         setfield Original index (set_level (clamp_level new_level))
     | None => ret tt
     end).

Definition batch_update_bookmarks (indices : list Z) (title_prefix : option py_str)
    (page_offset : option Z) (level_offset : option Z) : M unit :=
  save_state ;;
  for_each indices (batch_round title_prefix page_offset level_offset) ;;
  save_draft.

(** ** The offset engine: [apply_offset]

    [apply_offset] copies every entry before it changes the copy.  What it
    leaves untouched is a statement about objects, so it is modelled over
    a heap of Python objects: dicts (the entries) and lists of references. *)

Module Heap.

Abbreviation loc := positive.

Inductive object :=
| Dict (b : bookmark)
| List (items : list loc).

Abbreviation heap := (gmap loc object).

(** A new object gets an address that is not in use. *)
Definition alloc (o : object) (h : heap) : loc * heap :=
  let l := fresh (dom h) in (l, <[l := o]> h).

Inductive outcome (A : Type) :=
| Returns (a : A) (h : heap)
| TypeError.
Arguments Returns {A} a h.
Arguments TypeError {A}.

(** The [for bookmark in bookmarks] loop of [apply_offset]; [items] are
    the references held by the list that is iterated, which the loop does
    not write to, and [result_bookmarks] is the list being built. *)
Fixpoint offset_loop (offset : Z) (items : list loc) (result_bookmarks : loc)
    (h : heap) : outcome unit :=
  match items with
  | [] => Returns tt h
  | bookmark :: items =>
      match h !! bookmark with
      | Some (Dict d) =>
          let '(new_bookmark, h) := alloc (Dict d) h in          (* bookmark.copy() *)
          let h := match page d with
                   | Some p => <[new_bookmark := Dict (set_page (Some (p + offset)) d)]> h
                   | None => h
                   end in
          match h !! result_bookmarks with
          | Some (List l) =>
              offset_loop offset items result_bookmarks
                (<[result_bookmarks := List (l ++ [new_bookmark])]> h)
          | _ => TypeError
          end
      | _ => TypeError
      end
  end.

(** [self.apply_offset(bookmarks, offset)] on the object [self] whose
    field [offset] is [self_offset]. *)
Definition apply_offset (self_offset : Z) (bookmarks : loc) (offset : option Z)
    (h : heap) : outcome loc :=
  let offset := match offset with Some k => k | None => self_offset end in
  let '(result_bookmarks, h) := alloc (List []) h in
  match h !! bookmarks with
  | Some (List items) =>
      match offset_loop offset items result_bookmarks h with
      | Returns _ h => Returns result_bookmarks h
      | TypeError => TypeError
      end
  | _ => TypeError
  end.

(** The entries a list object holds, read through the heap. *)
Definition holds (h : heap) (items : list loc) (entries : list bookmark) : Prop :=
  Forall2 (fun l b => h !! l = Some (Dict b)) items entries.

Definition list_at (h : heap) (l : loc) (items : list loc) (entries : list bookmark) : Prop :=
  h !! l = Some (List items) ∧ holds h items entries.

End Heap.

(** The entry [apply_offset] computes from one entry. *)
Definition shift_page (offset : Z) (b : bookmark) : bookmark :=
  match page b with
  | Some p => set_page (Some (p + offset)) b
  | None => b
  end.

(** ** The outline writer: [generate_pdf_with_bookmarks] *)

(** An outline item as the PDF writer records it; a handle returned by
    [add_outline_item] is the position of the item in the writer. *)
Record outline_item := OutlineItem {
  item_title : py_str;
  item_page : Z;                    (* 0-based page index *)
  item_parent : option nat
}.

(** The lines the method prints; [ErrItem] and [ErrGenerate] end with
    the text of the exception that was caught. *)
Inductive message :=
| ErrNoLibrary
| ErrNoFile
| ErrNoBookmarks
| ErrItem (title : py_str)
| WarnPage (title : py_str) (page_num : option Z)
| Added (n : Z)
| Generated
| ErrClearDraft
| ErrGenerate (e : exn).

(** What the method depends on outside the object: the PDF library, the
    file system and the console. *)
Record environment := Environment {
  PY_PDF2_AVAILABLE : bool;
  reader_ok : bool;                 (* the uploaded file opens and parses *)
  num_pages : Z;                    (* len(reader.pages) *)
  item_raises : list outline_item -> py_str -> Z -> option nat -> bool;
                                    (* add_outline_item raises *)
  open_ok : bool;                   (* the output directory and file can be
                                       created: open(output_path, 'wb') *)
  write_ok : bool;                  (* writer.write fills the opened file *)
  draft_cleared : bool;             (* clear_draft: the draft is absent or
                                       is removed *)
  print_raises : message -> bool    (* print of this line raises: the
                                       console cannot encode its text *)
}.

(** The locals of the loop that adds the outline items. *)
Record writer_state := WriterState {
  outline : list outline_item;
  bookmark_map : list (nat * nat);   (* dict in insertion order: index -> handle *)
  bookmarks_added : Z;
  printed : list message
}.

Definition keys (m : list (nat * nat)) : list nat := m.*1.

(** [d[k]] *)
Definition dict_get (m : list (nat * nat)) (k : nat) : option nat :=
  snd <$> List.find (fun kv => (kv.1 =? k)%nat) m.

(** [d[k] = v]: a present key keeps its place, a new key goes last. *)
Fixpoint dict_set (m : list (nat * nat)) (k v : nat) : list (nat * nat) :=
  match m with
  | [] => [(k, v)]
  | (k', v') :: m' => if (k' =? k)%nat then (k, v) :: m' else (k', v') :: dict_set m' k v
  end.

(** The parent search:
    [for key in reversed(list(bookmark_map.keys())):
       if key < i and self.bookmarks[key]['level'] < level: ...; break]
    over [scan], the keys in the order they are visited, for the level
    [lvl] of the entry being attached. *)
Fixpoint find_parent (bms : list bookmark) (i : nat) (lvl : Z) (scan : list nat)
    : result (option nat) :=
  match scan with
  | [] => Ok None
  | key :: scan =>
      if (key <? i)%nat then
        match bms !! key with
        | Some b => if level b <? lvl then Ok (Some key)
                    else find_parent bms i lvl scan
        | None => Raise IndexError
        end
      else find_parent bms i lvl scan
  end.

(** [writer.add_outline_item(title, page, parent)]: the handle of the new
    item and the writer's items after the call, or [None] when it raises. *)
Definition add_outline_item (env : environment) (items : list outline_item)
    (title : py_str) (page : Z) (parent : option nat) : option (nat * list outline_item) :=
  if item_raises env items title page parent then None
  else Some (length items, items ++ [OutlineItem title page parent]).

(** [print(m)] inside the loop: the line is written, or the call raises
    and the locals stay as they are. *)
Definition print (env : environment) (st : writer_state) (m : message)
    : result unit * writer_state :=
  if print_raises env m then (Raise PrintError, st)
  else (Ok tt, WriterState (outline st) (bookmark_map st) (bookmarks_added st)
                 (printed st ++ [m])).

(** The handler of the inner [try]: the exception is reported; an
    exception of that [print] leaves the loop. *)
Definition raised (env : environment) (st : writer_state) (title : py_str)
    : result unit * writer_state :=
  print env st (ErrItem title).

(** Adding an item, recording it under [i] and counting it; an exception
    of the library is caught by the inner handler. *)
Definition attach (env : environment) (st : writer_state) (i : nat)
    (title : py_str) (page : Z) (parent : option nat) : result unit * writer_state :=
  match add_outline_item env (outline st) title page parent with
  | Some (handle, items) =>
      (Ok tt, WriterState items (dict_set (bookmark_map st) i handle)
                (bookmarks_added st + 1) (printed st))
  | None => raised env st title
  end.

Definition page_in_range (env : environment) (page_num : option Z) : bool :=
  match page_num with
  | Some p => (1 <=? p) && (p <=? num_pages env)
  | None => false
  end.

(** The body of [for i, bookmark in enumerate(self.bookmarks)]: the
    locals after it, and whether it ended or raised.  The warning of the
    [else] branch is printed outside the inner [try]. *)
Definition outline_step (env : environment) (bms : list bookmark)
    (st : writer_state) (ib : nat * bookmark) : result unit * writer_state :=
  let '(i, bookmark) := ib in
  let title := title bookmark in
  let page_num := page bookmark in
  let level := level bookmark in
  match page_num with
  | Some p =>
      if (1 <=? p) && (p <=? num_pages env) then
        if level =? 0 then attach env st i title (p - 1) None
        else if 0 <? level then
          match find_parent bms i level (rev (keys (bookmark_map st))) with
          | Ok (Some parent_key) =>
              match dict_get (bookmark_map st) parent_key with
              | Some parent => attach env st i title (p - 1) (Some parent)
              | None => raised env st title
              end
          | Ok None => attach env st i title (p - 1) None
          | Raise _ => raised env st title
          end
        else (Ok tt, st)
      else print env st (WarnPage title page_num)
  | None => print env st (WarnPage title page_num)
  end.

Definition enumerate {A} (l : list A) : list (nat * A) := imap pair l.

(** One round of the loop: once a round has raised, no further round
    runs. *)
Definition outline_round (env : environment) (bms : list bookmark)
    (run : result unit * writer_state) (ib : nat * bookmark)
    : result unit * writer_state :=
  match run with
  | (Ok _, st) => outline_step env bms st ib
  | (Raise e, st) => (Raise e, st)
  end.

(** The loop over [entries]: how it is left and the locals then. *)
Definition outline_run (env : environment) (bms : list bookmark)
    (entries : list (nat * bookmark)) : result unit * writer_state :=
  List.fold_left (outline_round env bms) entries (Ok tt, WriterState [] [] 0 []).

(** The locals when the loop is left, at its end or by an exception. *)
Definition outline_loop (env : environment) (bms : list bookmark)
    (entries : list (nat * bookmark)) : writer_state :=
  (outline_run env bms entries).2.

(** The output file after the call: not opened (as it was before),
    opened and left with whatever was written when [write] raised, or
    written in full with the outline. *)
Inductive output_file :=
| NotOpened
| Partial
| Written (items : list outline_item).

(** The outcome of a call: the returned flag or the exception that
    leaves the method, what was printed, and the output file. *)
Record generated := Generated_ {
  returned : result bool;
  output : list message;
  written : output_file
}.

Definition truthy (s : option py_str) : bool :=
  match s with Some (_ :: _) => true | _ => false end.

(** [print(m); return False] outside any [try]: an exception of the
    [print] leaves the method. *)
Definition print_return_false (env : environment) (out : list message) (m : message)
    (file : output_file) : generated :=
  if print_raises env m then Generated_ (Raise PrintError) out file
  else Generated_ (Ok false) (out ++ [m]) file.

(** The handler [except Exception as e] of the method. *)
Definition on_exception (env : environment) (out : list message) (e : exn)
    (file : output_file) : generated :=
  print_return_false env out (ErrGenerate e) file.

Definition generate_pdf_with_bookmarks (env : environment) (g : generator) : generated :=
  if negb (PY_PDF2_AVAILABLE env) then print_return_false env [] ErrNoLibrary NotOpened
  else if negb (truthy (uploaded_file g)) then print_return_false env [] ErrNoFile NotOpened
  else if bool_decide (bookmarks g = []) then
    print_return_false env [] ErrNoBookmarks NotOpened
  else if negb (reader_ok env) then on_exception env [] ReadError NotOpened
  else
    match outline_run env (bookmarks g) (enumerate (bookmarks g)) with
    | (Raise e, st) => on_exception env (printed st) e NotOpened
    | (Ok _, st) =>
        if print_raises env (Added (bookmarks_added st))
        then on_exception env (printed st) PrintError NotOpened
        else
          let out := printed st ++ [Added (bookmarks_added st)] in
          if negb (open_ok env) then on_exception env out OutputError NotOpened
          else if negb (write_ok env) then on_exception env out OutputError Partial
          else if print_raises env Generated
          then on_exception env out PrintError (Written (outline st))
          else
            let out := out ++ [Generated] in
            (* self.clear_draft() *)
            if draft_cleared env then Generated_ (Ok true) out (Written (outline st))
            else if print_raises env ErrClearDraft
            then on_exception env out PrintError (Written (outline st))
            else Generated_ (Ok true) (out ++ [ErrClearDraft]) (Written (outline st))
    end.

(** ** Notions the statements below use *)

(** The object after [n] successive calls of [undo]. *)
Fixpoint undo_times (n : nat) (g : generator) : generator :=
  match n with
  | O => g
  | S n => undo_times n (undo g).2
  end.

(** The fields [update_bookmark] writes into an entry: those given. *)
Definition update_fields (t : option py_str) (p l : option Z) (b : bookmark) : bookmark :=
  Bookmark (default (title b) t)
           (match p with Some p => Some p | None => page b end)
           (default (level b) l).

(** The position [move_bookmark] exchanges [index] with. *)
Definition move_target (index : Z) (direction : py_str) (n : Z) : Z :=
  if bool_decide (direction = u "up") && (0 <? index) then index - 1
  else if bool_decide (direction = u "down") && (index <? n - 1) then index + 1
  else index.

(** The exchange of the positions [i] and [j]. *)
Definition transpose (i j k : nat) : nat :=
  if decide (k = i) then j else if decide (k = j) then i else k.

(** How often [batch_update_bookmarks] visits position [k]. *)
Definition visits (indices : list Z) (k : nat) : nat :=
  count_occ Z.eq_dec indices (Z.of_nat k).

(** [n] copies of a prefix, one after the other. *)
Definition copies (n : nat) (prefix : option py_str) : py_str :=
  concat (replicate n (default [] prefix)).

(** What one round of [batch_update_bookmarks] makes of the entry [c] of
    [bookmarks] and of the entry [o] of [original_bookmarks] at the same
    position: each title and page is changed on its own, the new level of
    both comes from [c]. *)
Definition batch_current (prefix : option py_str) (poff loff : option Z)
    (c : bookmark) : bookmark :=
  Bookmark (match prefix with Some s => s ++ title c | None => title c end)
           (match poff with Some d => (fun p => p + d) <$> page c | None => page c end)
           (match loff with Some d => clamp_level (level c + d) | None => level c end).

Definition batch_original (prefix : option py_str) (poff loff : option Z)
    (c o : bookmark) : bookmark :=
  Bookmark (match prefix with Some s => s ++ title o | None => title o end)
           (match poff with Some d => (fun p => p + d) <$> page o | None => page o end)
           (match loff with Some d => clamp_level (level c + d) | None => level o end).

(** The entries [c'] and [o'] that [n] rounds make of [c] and [o]: the
    same prefix copies and the same page shift on both sides, and, once
    a level offset was applied, one and the same clamped level. *)
Definition batch_effect (n : nat) (prefix : option py_str) (poff loff : option Z)
    (c o c' o' : bookmark) : Prop :=
  title c' = copies n prefix ++ title c
  /\ title o' = copies n prefix ++ title o
  /\ page c' = (fun p => p + Z.of_nat n * default 0 poff) <$> page c
  /\ page o' = (fun p => p + Z.of_nat n * default 0 poff) <$> page o
  /\ (n = O \/ loff = None -> level c' = level c /\ level o' = level o)
  /\ (n <> O -> loff <> None -> level c' = level o' /\ 0 <= level c' <= 3).

(** The level of the entry at position [i]. *)
Definition level_at (bms : list bookmark) (i : nat) : Z :=
  default 0 (level <$> bms !! i).

(** [parent] is the handle of the nearest entry before [i] that is
    attached (recorded in [m]) and has a level below [lvl]; it is [None]
    when no attached entry before [i] has a level below [lvl]. *)
Definition nearest_shallower (bms : list bookmark) (m : list (nat * nat))
    (i : nat) (lvl : Z) (parent : option nat) : Prop :=
  match parent with
  | Some hp =>
      exists p, (p, hp) ∈ m /\ (p < i)%nat /\ level_at bms p < lvl
        /\ forall q hq, (q, hq) ∈ m -> (p < q < i)%nat -> lvl <= level_at bms q
  | None =>
      forall q hq, (q, hq) ∈ m -> (q < i)%nat -> lvl <= level_at bms q
  end.

(** The item the writer holds for an attached entry. *)
Definition attached_as (env : environment) (bms : list bookmark) (st : writer_state)
    (i h : nat) : Prop :=
  exists b p parent,
    bms !! i = Some b /\ page b = Some p /\ page_in_range env (page b) = true
    /\ 0 <= level b
    /\ outline st !! h = Some (OutlineItem (title b) (p - 1) parent)
    /\ nearest_shallower bms (bookmark_map st) i (level b) parent.

(** What holds of the locals after the first [n] entries, also when
    the loop was left by an exception among them. *)
Record loop_invariant (env : environment) (bms : list bookmark) (n : nat)
    (st : writer_state) : Prop := LoopInvariant {
  inv_sorted : StronglySorted (fun a b => (b < a)%nat) (rev (keys (bookmark_map st)));
  inv_below : Forall (fun k => (k < n)%nat) (keys (bookmark_map st));
  inv_count : bookmarks_added st = len (bookmark_map st);
  inv_items : length (outline st) = length (bookmark_map st);
  inv_attached : forall i h, (i, h) ∈ bookmark_map st -> attached_as env bms st i h
}.


(** ** Further methods of the class and their callers *)

(** [calculate_offset]; the field [self.content_start_page], which the
    record above does not hold, is the first argument. *)
Definition calculate_offset (self_content_start_page : option Z)
    (content_start_page : option Z) : Z :=
  let stored :=
    match self_content_start_page with
    | Some c => if 0 <? c then c - 1 else 0
    | None => 0
    end in
  match content_start_page with
  | Some c => if 0 <? c then c - 1 else stored
  | None => stored
  end.

(** An element [{'index': i, 'bookmark': bookmark}] of a result list. *)
Record hit := Hit {
  hit_index : nat;
  hit_bookmark : bookmark
}.

(** The loop [for i, bookmark in enumerate(self.bookmarks): if <test>:
    results.append(...)] that [search_bookmarks] and
    [filter_bookmarks_by_level] share. *)
Definition collect_list (test : bookmark -> bool) (l : list bookmark) : list hit :=
  List.fold_left
    (fun results ib => if test ib.2 then results ++ [Hit ib.1 ib.2] else results)
    (enumerate l) [].

Definition collect (test : bookmark -> bool) (g : generator) : list hit :=
  collect_list test (bookmarks g).

Definition filter_bookmarks_by_level (lvl : Z) (g : generator) : list hit :=
  collect (fun bookmark => bool_decide (level bookmark = lvl)) g.

(** [search_bookmarks]; [lower] is [str.lower] of the Python runtime. *)
Definition search_bookmarks (lower : py_str -> py_str) (keyword : py_str)
    (g : generator) : list hit :=
  collect (fun bookmark => contains (lower (title bookmark)) (lower keyword)) g.

(** [apply_offset] on a list held by value: the entries of the list it
    returns (see [Heap.apply_offset]). *)
Definition apply_offset_by_value (self_offset : Z) (bms : list bookmark)
    (k : option Z) : list bookmark :=
  shift_page (default self_offset k) <$> bms.

(** The request handler's branch for [/apply_offset]
    ([src/pdf_content_bookmark_generator_beta.py]), after decoding the
    request: the offset is stored and [bookmarks] is recomputed from
    [original_bookmarks]. *)
Definition post_apply_offset (requested : Z) : M unit :=
  modify (with_offset requested) ;;
  g <- get ;;
  modify (with_bookmarks
            (apply_offset_by_value (offset g) (original_bookmarks g) (Some requested))).

(** An element of the handler's answer to [/preview_offset]. *)
Record change := Change {
  change_title : py_str;
  original_page : option Z;
  new_page : option Z
}.

(** The branch for [/preview_offset]: the list [changes]. *)
Definition preview_offset (requested : Z) (g : generator) : list change :=
  List.fold_left
    (fun changes ib =>
       let original_page := page ib.2 in
       let new_page := match original_page with
                       | Some p => Some (p + requested)
                       | None => None
                       end in
       changes ++ [Change (title ib.2) original_page new_page])
    (enumerate (original_bookmarks g)) [].

(** The branch for [/move_bookmark]: the selected indices are moved one
    after the other, lowest first when moving up, highest first
    otherwise. *)
Definition post_move_bookmark (indices : list Z) (direction : py_str) : M unit :=
  if bool_decide (direction = u "up") then
    for_each (merge_sort Z.le indices) (fun index => move_bookmark index (u "up"))
  else
    for_each (merge_sort Z.ge indices)
      (fun index => move_bookmark index (u "down")).

(** ** [escape_html] of [src/utils/helpers.py] *)

Definition html_escape_table : list (N * py_str) :=
  [ (chr "&", u "&amp;");
    (34%N, u "&quot;");
    (chr "'", u "&#x27;");
    (chr ">", u "&gt;");
    (chr "<", u "&lt;") ].

(** [table.get(c, c)] *)
Definition table_get (table : list (N * py_str)) (c : N) : py_str :=
  match List.find (fun kv => (kv.1 =? c)%N) table with
  | Some kv => kv.2
  | None => [c]
  end.

Definition escape_html (text : py_str) : py_str :=
  concat (List.map (table_get html_escape_table) text).

(** The text an escaped text stands for: every entity of the table is
    read back as its character. *)
Fixpoint unescape_html (fuel : nat) (s : py_str) : py_str :=
  match fuel with
  | O => []
  | S fuel =>
      match s with
      | [] => []
      | c :: t =>
          match List.find (fun kv => startswith s kv.2) html_escape_table with
          | Some kv => kv.1 :: unescape_html fuel (drop (length kv.2) s)
          | None => c :: unescape_html fuel t
          end
      end
  end.

(** ** The page stitching of [extract_toc_pages] *)

(** The branch that runs when the conversion gave more than one image.
    For the sizes [(width, height)] of the page images: the size of the
    new image and, per page, the position it is pasted at.  Without an
    image [zip] yields nothing to unpack into [widths, heights] and the
    statement raises: [None]. *)
Definition stitch (sizes : list (Z * Z)) : option ((Z * Z) * list (Z * Z)) :=
  let heights := List.map snd sizes in
  match List.map fst sizes with
  | [] => None
  | w :: ws =>
      let total_height := List.fold_left Z.add heights 0 in
      let max_width := List.fold_left Z.max ws w in
      let pasted :=
        List.fold_left
          (fun acc size => (acc.1 ++ [(0, acc.2)], acc.2 + size.2))
          sizes ([], 0) in
      Some ((max_width, total_height), pasted.1)
  end.

(** The handles recorded in [bookmark_map] are the positions of the
    outline items, in the order the items were added. *)
Definition handles_in_order (st : writer_state) : Prop :=
  (bookmark_map st).*2 = seq 0 (length (outline st)).

(** The length of the run of digits that [parse_toc_text] takes for the
    page number of a line (the line as the second loop sees it,
    stripped): what [int] is applied to; 0 when the line has none. *)
Definition page_digits (line : py_str) : Z :=
  match Re.search Parser.page_re (Parser.cut_prefixes (length line) line) with
  | Some m => len (Re.group m 1)
  | None => 0
  end.

(** ** What a pattern matches

    A declarative reading of the patterns: [matches r s s'] holds when
    [r] can take the matcher from state [s] to state [s']. *)

Inductive reps (R : Re.mstate -> Re.mstate -> Prop) : nat -> Re.mstate -> Re.mstate -> Prop :=
| reps_O s : reps R O s s
| reps_S n s s1 s2 : R s s1 -> reps R n s1 s2 -> reps R (S n) s s2.

Definition within (n : nat) (hi : option nat) : Prop :=
  match hi with Some h => (n <= h)%nat | None => True end.

#[warnings="-register-all"]
Inductive matches : Re.regex -> Re.mstate -> Re.mstate -> Prop :=
| matches_Eps s : matches Re.Eps s s
| matches_Cls p s c t :
    Re.rest s = c :: t -> p c = true ->
    matches (Re.Cls p) s (Re.MState (S (Re.pos s)) t (Re.caps s))
| matches_Seq a b s s1 s2 :
    matches a s s1 -> matches b s1 s2 -> matches (Re.Seq a b) s s2
| matches_Alt_l a b s s' : matches a s s' -> matches (Re.Alt a b) s s'
| matches_Alt_r a b s s' : matches b s s' -> matches (Re.Alt a b) s s'
| matches_Rep lo hi a n s s' :
    reps (matches a) n s s' -> (lo <= n)%nat -> within n hi ->
    matches (Re.Rep lo hi a) s s'
| matches_Grp n a s s' :
    matches a s s' ->
    matches (Re.Grp n a) s
      (Re.MState (Re.pos s') (Re.rest s') ((n, (Re.pos s, Re.pos s')) :: Re.caps s'))
| matches_Bol s : Re.pos s = O -> matches Re.Bol s s
| matches_Eol s : Re.rest s = [] \/ Re.rest s = [LF] -> matches Re.Eol s s.

(* ===================================================================== *)
(** * Part II: properties                                                  *)
(* ===================================================================== *)

(** ** The parser on the inputs of the specification *)

Section ParserExamples.
Local Open Scope string_scope.

(** C7: the line "1.1.1 Detail 10" parses to the one entry with title
    "1.1.1 Detail" (the numbering stays in the title), page 10 and level 2
    (the two dots of the numbering), whatever the state of the object. *)
Theorem parse_dotted_numbering (g : generator) :
  (parse_toc_text (u "1.1.1 Detail 10") g).1
    = Ok [Bookmark (u "1.1.1 Detail") (Some 10) 2].
Proof.
  vm_compute. reflexivity.
Qed.

(** C6: on the two lines "# Title 5" and "## Sub 6" the pages are 5 and 6
    and the levels are the ranks 0 and 1 of the hash counts, but the title
    of a Markdown line is the whole remainder of the line after the
    hashes, so it still ends with the page number: "Title 5" and "Sub 6",
    not "Title" and "Sub". *)
Theorem parse_markdown_keeps_page_in_title (g : generator) :
  (parse_toc_text (u "# Title 5" ++ [LF] ++ u "## Sub 6") g).1
    = Ok [Bookmark (u "Title 5") (Some 5) 0; Bookmark (u "Sub 6") (Some 6) 1].
Proof.
  vm_compute. reflexivity.
Qed.

(** C3: a numbering with four dots gives level 4: the dotted-numbering
    branch takes the maximum with the number of dots and nothing caps it
    afterwards. *)
Theorem parse_level_above_three (g : generator) :
  (parse_toc_text (u "1.1.1.1.1 Intro 5") g).1
    = Ok [Bookmark (u "1.1.1.1.1 Intro") (Some 5) 4].
Proof.
  vm_compute. reflexivity.
Qed.

End ParserExamples.

(** ** The marker loop of the parser runs to its end *)

Lemma lstrip_length (s : py_str) : (length (lstrip s) <= length s)%nat.
Proof.
  induction s as [|c s IH]; simpl; [lia|].
  destruct (isspace c); simpl; lia.
Qed.

Lemma strip_length (s : py_str) : (length (strip s) <= length s)%nat.
Proof.
  unfold strip, rstrip. rewrite length_rev.
  etransitivity; [apply lstrip_length|]. rewrite length_rev. apply lstrip_length.
Qed.

Lemma cut_prefix_shorter (line : py_str) :
  existsb (startswith line) Parser.prefixes = true ->
  (length (Parser.cut_prefix line) < length line)%nat.
Proof.
  intros Hany. unfold Parser.cut_prefix.
  destruct (List.find (startswith line) Parser.prefixes) as [prefix|] eqn:Hfind.
  - apply find_some in Hfind as [Hin Hstart].
    assert (Hone : length prefix = 1%nat).
    { assert (Hall : Forall (fun p : py_str => length p = 1%nat) Parser.prefixes)
        by (repeat constructor).
      rewrite Forall_forall in Hall. apply Hall, list_elem_of_In, Hin. }
    destruct prefix as [|a [|? ?]]; try discriminate Hone.
    destruct line as [|c line]; [discriminate Hstart|].
    simpl. pose proof (strip_length line). rewrite drop_0. lia.
  - apply existsb_exists in Hany as (prefix & Hin & Hstart).
    pose proof (find_none _ _ Hfind prefix Hin). congruence.
Qed.

(** With the fuel the parser gives it, the loop stops only when the line
    starts with none of the markers. *)
Lemma cut_prefixes_done (fuel : nat) (line : py_str) :
  (length line <= fuel)%nat ->
  existsb (startswith (Parser.cut_prefixes fuel line)) Parser.prefixes = false.
Proof.
  revert line. induction fuel as [|fuel IH]; intros line Hlen; cbn [Parser.cut_prefixes].
  - destruct line; [reflexivity | simpl in Hlen; lia].
  - destruct (existsb (startswith line) Parser.prefixes) eqn:Hany; [|exact Hany].
    apply IH. pose proof (cut_prefix_shorter line Hany). lia.
Qed.

(** ** The undo log *)

Lemma deque_append_length {A} (d : list A) (x : A) :
  (length (deque_append d x) <= maxlen)%nat.
Proof.
  unfold deque_append. rewrite length_drop, length_app. simpl. unfold maxlen. lia.
Qed.

Lemma undo_empty_handed (g : generator) :
  (length (history g) <= 1)%nat -> undo g = (Ok false, g).
Proof.
  intros Hlen. unfold undo, bind, get, len.
  destruct (Z.ltb_spec 1 (Z.of_nat (length (history g)))) as [H|H]; [lia | reflexivity].
Qed.

Lemma undo_history_length (g : generator) :
  (length (history (undo g).2) <= Init.Nat.max 1 (length (history g) - 1))%nat.
Proof.
  unfold undo, bind, get, modify, raise, save_draft, ret, len.
  destruct (Z.ltb_spec 1 (Z.of_nat (length (history g)))) as [H|H]; simpl; [|lia].
  destruct (norm_index _ _ ≫= _); simpl;
    rewrite removelast_firstn_len, length_take; lia.
Qed.

Lemma undo_times_history (n : nat) (g : generator) :
  (length (history g) <= S n)%nat ->
  (length (history (undo_times n g)) <= 1)%nat.
Proof.
  revert g. induction n as [|n IH]; intros g Hlen; simpl; [exact Hlen|].
  apply IH. pose proof (undo_history_length g). lia.
Qed.

(** C8: once [undo] has been called as often as there are older snapshots
    (at least [length history - 1] times), the next call returns [False]
    without raising and leaves the whole object, in particular
    [bookmarks], [original_bookmarks] and [offset], as it was; the log
    never holds more than five snapshots after [save_state]. *)
Theorem undo_past_oldest (g : generator) (n : nat) :
  (length (history g) <= S n)%nat ->
  undo (undo_times n g) = (Ok false, undo_times n g)
  /\ (length (history (save_state g).2) <= 5)%nat.
Proof.
  intros Hlen. split.
  - apply undo_empty_handed, undo_times_history, Hlen.
  - apply (deque_append_length (history g)).
Qed.

Lemma undo_past_oldest_witness :
  let g := Generator None [Bookmark (u "a") (Some 1) 0] [] 3
             [Snapshot [] [] 0; Snapshot [Bookmark (u "a") None 0] [] 3] in
  undo (undo_times 1 g) = (Ok false, undo_times 1 g)
  /\ (length (history (save_state g).2) <= 5)%nat.
Proof. apply undo_past_oldest. simpl. lia. Defined.

(** ** Indexing the two lists *)

Lemma norm_index_in {A} (l : list A) (i : Z) :
  0 <= i < len l -> norm_index l i = Some (Z.to_nat i).
Proof.
  intros [H0 H1]. unfold norm_index.
  destruct (Z.leb_spec 0 i); [|lia]. destruct (Z.ltb_spec i (len l)); [|lia].
  reflexivity.
Qed.

Lemma in_bounds_true (index : Z) (g : generator) :
  in_bounds index g = true <-> 0 <= index < len (bookmarks g).
Proof. unfold in_bounds. rewrite andb_true_iff, Z.leb_le, Z.ltb_lt. tauto. Qed.

Lemma in_bounds_false (index : Z) (g : generator) :
  in_bounds index g = false <-> ~ (0 <= index < len (bookmarks g)).
Proof. rewrite <- in_bounds_true. destruct (in_bounds index g); split; congruence. Qed.

Lemma the_list_put_same (w : which) (l : list bookmark) (g : generator) :
  the_list w (put_list w l g) = l.
Proof. destruct w; reflexivity. Qed.

Lemma lookup_in_len {A} (l : list A) (i : Z) (x : A) :
  0 <= i -> l !! Z.to_nat i = Some x -> 0 <= i < len l.
Proof. intros H0 Hx. apply lookup_lt_Some in Hx. unfold len. lia. Qed.

Lemma getitem_ok (w : which) (i : Z) (g : generator) (b : bookmark) :
  0 <= i -> the_list w g !! Z.to_nat i = Some b -> getitem w i g = (Ok b, g).
Proof.
  intros H0 Hb. unfold getitem.
  rewrite norm_index_in by eauto using lookup_in_len. simpl. rewrite Hb. reflexivity.
Qed.

Lemma setitem_ok (w : which) (i : Z) (g : generator) (b : bookmark) :
  0 <= i < len (the_list w g) ->
  setitem w i b g = (Ok tt, put_list w (<[Z.to_nat i := b]> (the_list w g)) g).
Proof. intros Hi. unfold setitem. rewrite norm_index_in by exact Hi. reflexivity. Qed.

Lemma delitem_ok (w : which) (i : Z) (g : generator) :
  0 <= i < len (the_list w g) ->
  delitem w i g = (Ok tt, put_list w (delete (Z.to_nat i) (the_list w g)) g).
Proof. intros Hi. unfold delitem. rewrite norm_index_in by exact Hi. reflexivity. Qed.

Lemma setfield_ok (w : which) (i : Z) (f : bookmark -> bookmark) (g : generator)
    (b : bookmark) :
  0 <= i -> the_list w g !! Z.to_nat i = Some b ->
  setfield w i f g = (Ok tt, put_list w (<[Z.to_nat i := f b]> (the_list w g)) g).
Proof.
  intros H0 Hb. unfold setfield, bind. rewrite (getitem_ok w i g b) by assumption.
  apply setitem_ok. eauto using lookup_in_len.
Qed.

(** ** Rejected and boundary calls *)

(** C10: for an index outside [0, len(bookmarks)), [remove_bookmark],
    [update_bookmark] and [move_bookmark] return without raising and leave
    the object as it was: both lists, the offset and the undo log. *)
Theorem out_of_range_is_ignored (g : generator) (index : Z)
    (title : option py_str) (page level : option Z) (direction : py_str) :
  ~ (0 <= index < len (bookmarks g)) ->
  remove_bookmark index g = (Ok tt, g)
  /\ update_bookmark index title page level g = (Ok tt, g)
  /\ move_bookmark index direction g = (Ok tt, g).
Proof.
  intros Hout. apply in_bounds_false in Hout.
  unfold remove_bookmark, update_bookmark, move_bookmark, bind, get, when.
  rewrite Hout. auto.
Qed.

Lemma out_of_range_is_ignored_witness :
  let g := Generator None [Bookmark (u "a") (Some 1) 0] [Bookmark (u "a") (Some 1) 0] 0 [] in
  remove_bookmark 1 g = (Ok tt, g)
  /\ update_bookmark 1 (Some (u "b")) None (Some 2) g = (Ok tt, g)
  /\ move_bookmark 1 (u "up") g = (Ok tt, g).
Proof. apply out_of_range_is_ignored. vm_compute. intros [_ H]. discriminate H. Defined.

(** C9: on a non-empty store, moving the first entry up and moving the
    last entry down return without raising and leave [bookmarks] and
    [original_bookmarks] as they were. *)
Theorem move_at_boundary (g : generator) :
  bookmarks g <> [] ->
  (exists g', move_bookmark 0 (u "up") g = (Ok tt, g')
     /\ bookmarks g' = bookmarks g
     /\ original_bookmarks g' = original_bookmarks g)
  /\ (exists g', move_bookmark (len (bookmarks g) - 1) (u "down") g = (Ok tt, g')
     /\ bookmarks g' = bookmarks g
     /\ original_bookmarks g' = original_bookmarks g).
Proof.
  intros Hne.
  assert (Hpos : 0 < len (bookmarks g)).
  { unfold len. destruct (bookmarks g); [congruence | simpl; lia]. }
  split; exists (save_state g).2; unfold move_bookmark, bind, get, when.
  - replace (in_bounds 0 g) with true by (symmetry; apply in_bounds_true; lia).
    rewrite andb_false_r. simpl. auto.
  - replace (in_bounds (len (bookmarks g) - 1) g) with true
      by (symmetry; apply in_bounds_true; lia).
    rewrite Z.ltb_irrefl, andb_false_r. simpl. auto.
Qed.

Lemma move_at_boundary_witness :
  let g := Generator None [Bookmark (u "a") (Some 1) 0; Bookmark (u "b") None 1]
             [Bookmark (u "a") (Some 1) 0; Bookmark (u "b") None 1] 0 [] in
  (exists g', move_bookmark 0 (u "up") g = (Ok tt, g')
     /\ bookmarks g' = bookmarks g
     /\ original_bookmarks g' = original_bookmarks g)
  /\ (exists g', move_bookmark (len (bookmarks g) - 1) (u "down") g = (Ok tt, g')
     /\ bookmarks g' = bookmarks g
     /\ original_bookmarks g' = original_bookmarks g).
Proof. apply move_at_boundary. discriminate. Defined.

(** ** Edits keep the two lists aligned *)

Lemma bind_ok {A B} (m : M A) (f : A -> M B) (g g' : generator) (a : A) :
  m g = (Ok a, g') -> bind m f g = f a g'.
Proof. intros H. unfold bind. rewrite H. reflexivity. Qed.

Lemma insert_as_alter {A} (f : A -> A) (l : list A) (n : nat) (x : A) :
  l !! n = Some x -> <[n := f x]> l = alter f n l.
Proof.
  intros Hx. apply list_eq. intros k.
  rewrite list_lookup_insert, list_lookup_alter.
  pose proof (lookup_lt_Some _ _ _ Hx).
  destruct (decide (n = k)) as [->|Hne].
  - rewrite decide_True by auto. rewrite Hx. reflexivity.
  - rewrite decide_False by tauto. reflexivity.
Qed.

Lemma setfield_alter (w : which) (i : Z) (f : bookmark -> bookmark) (g : generator) :
  0 <= i < len (the_list w g) ->
  setfield w i f g = (Ok tt, put_list w (alter f (Z.to_nat i) (the_list w g)) g).
Proof.
  intros Hi.
  destruct (lookup_lt_is_Some_2 (the_list w g) (Z.to_nat i)) as [b Hb].
  { unfold len in Hi. lia. }
  rewrite (setfield_ok w i f g b) by (lia || assumption).
  rewrite (insert_as_alter f _ _ b) by assumption. reflexivity.
Qed.

Lemma len_alter (f : bookmark -> bookmark) (n : nat) (l : list bookmark) :
  len (alter f n l) = len l.
Proof. unfold len. rewrite length_alter. reflexivity. Qed.

Lemma len_insert (b : bookmark) (n : nat) (l : list bookmark) :
  len (<[n := b]> l) = len l.
Proof. unfold len. rewrite length_insert. reflexivity. Qed.

Lemma bind_assoc {A B C} (m : M A) (f : A -> M B) (k : B -> M C) (g : generator) :
  bind (bind m f) k g = bind m (fun a => bind (f a) k) g.
Proof. unfold bind. destruct (m g) as [[a|e] g']; reflexivity. Qed.

Ltac in_range := simpl; rewrite ?len_alter, ?len_insert; unfold len in *; lia.

Lemma remove_bookmark_ok (g : generator) (index : Z) :
  length (bookmarks g) = length (original_bookmarks g) ->
  0 <= index < len (bookmarks g) ->
  exists g', remove_bookmark index g = (Ok tt, g')
    /\ bookmarks g' = delete (Z.to_nat index) (bookmarks g)
    /\ original_bookmarks g' = delete (Z.to_nat index) (original_bookmarks g).
Proof.
  intros Hlen Hi. eexists. unfold remove_bookmark, bind at 1, get, when.
  replace (in_bounds index g) with true by (symmetry; apply in_bounds_true; exact Hi).
  split.
  - unfold save_state. unfold bind at 1, modify.
    erewrite bind_ok by (apply delitem_ok; in_range).
    erewrite bind_ok by (apply delitem_ok; in_range).
    reflexivity.
  - split; reflexivity.
Qed.


(** One step of a method body whose statements do not raise. *)
Ltac run_step :=
  first [ rewrite bind_assoc
        | erewrite bind_ok by (apply setfield_alter; in_range)
        | erewrite bind_ok by (apply delitem_ok; in_range)
        | erewrite bind_ok by reflexivity ].

Lemma update_bookmark_ok (g : generator) (index : Z) (t : option py_str) (p l : option Z) :
  length (bookmarks g) = length (original_bookmarks g) ->
  0 <= index < len (bookmarks g) ->
  exists g', update_bookmark index t p l g = (Ok tt, g')
    /\ bookmarks g' = alter (update_fields t p l) (Z.to_nat index) (bookmarks g)
    /\ original_bookmarks g' = alter (update_fields t p l) (Z.to_nat index) (original_bookmarks g).
Proof.
  intros Hlen Hi. unfold update_bookmark.
  erewrite bind_ok by reflexivity. unfold when.
  replace (in_bounds index g) with true by (symmetry; apply in_bounds_true; exact Hi).
  destruct t as [t|], p as [p|], l as [l|]; repeat run_step;
    (eexists; split; [reflexivity|]);
    split; apply list_eq; intros k; simpl; rewrite !list_lookup_alter;
    repeat case_decide; try congruence; try reflexivity; subst k;
    match goal with |- context [?l !! Z.to_nat index] => destruct (l !! Z.to_nat index) as [[? ? ?]|] end;
    reflexivity.
Qed.

Lemma transpose_same (i k : nat) : transpose i i k = k.
Proof. unfold transpose. repeat case_decide; congruence. Qed.

Lemma swap_items_ok (w : which) (i j : Z) (g : generator) :
  0 <= i < len (the_list w g) -> 0 <= j < len (the_list w g) ->
  exists l', swap_items w i j g = (Ok tt, put_list w l' g)
    /\ length l' = length (the_list w g)
    /\ forall k, l' !! k = the_list w g !! transpose (Z.to_nat i) (Z.to_nat j) k.
Proof.
  intros Hi Hj. set (l := the_list w g) in *.
  destruct (lookup_lt_is_Some_2 l (Z.to_nat i)) as [y Hy]; [unfold len in Hi; lia|].
  destruct (lookup_lt_is_Some_2 l (Z.to_nat j)) as [x Hx]; [unfold len in Hj; lia|].
  exists (<[Z.to_nat j := y]> (<[Z.to_nat i := x]> l)).
  split; [|split].
  - unfold swap_items.
    erewrite bind_ok by (apply getitem_ok; [lia | exact Hx]).
    erewrite bind_ok by (apply getitem_ok; [lia | exact Hy]).
    erewrite bind_ok by (apply setitem_ok; exact Hi).
    rewrite setitem_ok by (rewrite the_list_put_same; fold l; rewrite len_insert; exact Hj).
    rewrite the_list_put_same. fold l. destruct w; reflexivity.
  - rewrite !length_insert. reflexivity.
  - intros k. rewrite !list_lookup_insert, !length_insert. unfold transpose, len in *.
    repeat case_decide; destruct_and?; try congruence; try lia; tauto.
Qed.

Lemma move_bookmark_ok (g : generator) (index : Z) (direction : py_str) :
  length (bookmarks g) = length (original_bookmarks g) ->
  0 <= index < len (bookmarks g) ->
  let j := Z.to_nat (move_target index direction (len (bookmarks g))) in
  exists g', move_bookmark index direction g = (Ok tt, g')
    /\ length (bookmarks g') = length (bookmarks g)
    /\ length (original_bookmarks g') = length (original_bookmarks g)
    /\ forall k,
         bookmarks g' !! k = bookmarks g !! transpose (Z.to_nat index) j k
         /\ original_bookmarks g' !! k
              = original_bookmarks g !! transpose (Z.to_nat index) j k.
Proof.
  intros Hlen Hi j. unfold move_bookmark.
  erewrite bind_ok by reflexivity. unfold when.
  replace (in_bounds index g) with true by (symmetry; apply in_bounds_true; exact Hi).
  erewrite bind_ok by reflexivity.
  subst j. unfold move_target.
  set (g1 := with_history _ g).
  assert (Hswap : forall t, 0 <= t < len (bookmarks g) ->
    exists g', (swap_items Current index t ;; swap_items Original index t)%py g1 = (Ok tt, g')
      /\ length (bookmarks g') = length (bookmarks g)
      /\ length (original_bookmarks g') = length (original_bookmarks g)
      /\ forall k,
           bookmarks g' !! k = bookmarks g !! transpose (Z.to_nat index) (Z.to_nat t) k
           /\ original_bookmarks g' !! k
                = original_bookmarks g !! transpose (Z.to_nat index) (Z.to_nat t) k).
  { intros t Ht.
    destruct (swap_items_ok Current index t g1) as (l1 & E1 & L1 & P1); [in_range..|].
    destruct (swap_items_ok Original index t (put_list Current l1 g1))
      as (l2 & E2 & L2 & P2); [in_range..|].
    eexists. split; [|split; [|split]].
    - erewrite bind_ok by exact E1. exact E2.
    - exact L1.
    - exact L2.
    - intros k. split; [apply P1 | apply P2]. }
  destruct (bool_decide (direction = u "up") && (0 <? index)) eqn:Eup.
  - apply andb_true_iff in Eup as [_ Hpos%Z.ltb_lt].
    destruct (Hswap (index - 1)) as (g' & E & ?); [lia|].
    exists g'. split; [|assumption].
    erewrite bind_ok by exact E. reflexivity.
  - destruct (bool_decide (direction = u "down") && (index <? len (bookmarks g) - 1)) eqn:Edown.
    + apply andb_true_iff in Edown as [_ Hlt%Z.ltb_lt].
      destruct (Hswap (index + 1)) as (g' & E & ?); [lia|].
      exists g'. split; [|assumption].
      erewrite bind_ok by exact E. reflexivity.
    + exists g1. split; [reflexivity|].
      split; [reflexivity|]. split; [reflexivity|].
      intros k. rewrite transpose_same. split; reflexivity.
Qed.

Ltac lookup_now :=
  simpl; rewrite ?list_lookup_insert_eq by (rewrite ?length_insert; unfold len in *; lia);
  first [reflexivity | eassumption].

Ltac round_step :=
  first [ rewrite bind_assoc
        | erewrite bind_ok by (apply getitem_ok; [lia | lookup_now])
        | erewrite bind_ok by (apply setfield_ok; [lia | lookup_now])
        | erewrite bind_ok by reflexivity ];
  cbn [page title level set_title set_page set_level].

Lemma batch_round_skip (prefix : option py_str) (poff loff : option Z) (index : Z)
    (g : generator) :
  ~ (0 <= index < len (bookmarks g)) ->
  batch_round prefix poff loff index g = (Ok tt, g).
Proof.
  intros Hout%in_bounds_false. unfold batch_round.
  erewrite bind_ok by reflexivity. unfold when. rewrite Hout. reflexivity.
Qed.

Lemma batch_round_ok (prefix : option py_str) (poff loff : option Z) (index : Z)
    (g : generator) (c o : bookmark) :
  0 <= index ->
  bookmarks g !! Z.to_nat index = Some c ->
  original_bookmarks g !! Z.to_nat index = Some o ->
  exists g', batch_round prefix poff loff index g = (Ok tt, g')
    /\ bookmarks g' = <[Z.to_nat index := batch_current prefix poff loff c]> (bookmarks g)
    /\ original_bookmarks g'
         = <[Z.to_nat index := batch_original prefix poff loff c o]> (original_bookmarks g)
    /\ history g' = history g.
Proof.
  intros H0 Hc Ho.
  pose proof (lookup_lt_Some _ _ _ Hc) as Lc.
  pose proof (lookup_lt_Some _ _ _ Ho) as Lo.
  unfold batch_round. erewrite bind_ok by reflexivity. unfold when.
  replace (in_bounds index g) with true
    by (symmetry; apply in_bounds_true; unfold len; lia).
  destruct c as [tc [pc|] lc], o as [to [po|] lo], prefix as [s|], poff as [d|], loff as [e|];
    repeat round_step.
  all: eexists; split;
    [first [reflexivity | erewrite setfield_ok by (lia || lookup_now); reflexivity]|].
  all: simpl; rewrite ?list_insert_insert_eq; unfold batch_current, batch_original; simpl.
  all: split; [|split]; try reflexivity.
  all: symmetry; apply list_insert_id; assumption.
Qed.

Lemma copies_shift (n : nat) (prefix : option py_str) (t : py_str) :
  copies n prefix ++ default [] prefix ++ t = copies (S n) prefix ++ t.
Proof.
  unfold copies. induction n as [|n IH]; simpl.
  - rewrite app_nil_r. reflexivity.
  - rewrite <- !app_assoc. f_equal. rewrite IH. simpl. rewrite <- app_assoc. reflexivity.
Qed.

Lemma clamp_level_range (l : Z) : 0 <= clamp_level l <= 3.
Proof. unfold clamp_level. lia. Qed.

Lemma batch_effect_zero (prefix : option py_str) (poff loff : option Z) (c o : bookmark) :
  batch_effect 0 prefix poff loff c o c o.
Proof.
  unfold batch_effect, copies. simpl. repeat split; try tauto.
  - destruct (page c); simpl; f_equal; lia.
  - destruct (page o); simpl; f_equal; lia.
Qed.

Lemma batch_effect_round (n : nat) (prefix : option py_str) (poff loff : option Z)
    (c o c' o' : bookmark) :
  batch_effect n prefix poff loff
    (batch_current prefix poff loff c) (batch_original prefix poff loff c o) c' o' ->
  batch_effect (S n) prefix poff loff c o c' o'.
Proof.
  unfold batch_effect. intros (Tc & To & Pc & Po & Keep & Same).
  rewrite <- !copies_shift.
  split; [|split; [|split; [|split; [|split]]]].
  - rewrite Tc. destruct prefix; reflexivity.
  - rewrite To. destruct prefix; reflexivity.
  - rewrite Pc, Nat2Z.inj_succ. destruct c as [? [?|] ?], poff; simpl; f_equal; lia.
  - rewrite Po, Nat2Z.inj_succ. destruct o as [? [?|] ?], poff; simpl; f_equal; lia.
  - intros [E|E]; [discriminate E|]. subst loff.
    destruct Keep as [-> ->]; [tauto|]. split; reflexivity.
  - intros _ Hl. destruct loff as [d|]; [|congruence].
    destruct n as [|n].
    + destruct Keep as [-> ->]; [tauto|]. simpl. split; [reflexivity|apply clamp_level_range].
    + apply Same; congruence.
Qed.

Lemma for_each_batch (prefix : option py_str) (poff loff : option Z)
    (indices : list Z) (g : generator) :
  length (bookmarks g) = length (original_bookmarks g) ->
  exists g', for_each indices (batch_round prefix poff loff) g = (Ok tt, g')
    /\ length (bookmarks g') = length (bookmarks g)
    /\ length (original_bookmarks g') = length (original_bookmarks g)
    /\ history g' = history g
    /\ forall k c o,
         bookmarks g !! k = Some c -> original_bookmarks g !! k = Some o ->
         exists c' o',
           bookmarks g' !! k = Some c' /\ original_bookmarks g' !! k = Some o'
           /\ batch_effect (visits indices k) prefix poff loff c o c' o'.
Proof.
  revert g. induction indices as [|i rest IH]; intros g Hlen.
  - exists g. repeat split; try reflexivity.
    intros k c o Hc Ho. exists c, o. auto using batch_effect_zero.
  - simpl for_each.
    destruct (decide (0 <= i < len (bookmarks g))) as [Hi|Hi].
    + destruct (lookup_lt_is_Some_2 (bookmarks g) (Z.to_nat i)) as [ci Hci];
        [unfold len in Hi; lia|].
      destruct (lookup_lt_is_Some_2 (original_bookmarks g) (Z.to_nat i)) as [oi Hoi];
        [unfold len in Hi; lia|].
      destruct (batch_round_ok prefix poff loff i g ci oi) as (g1 & E1 & B1 & O1 & H1);
        [lia | assumption..|].
      destruct (IH g1) as (g' & E' & Lb & Lo & Hh & P).
      { rewrite B1, O1, !length_insert. exact Hlen. }
      exists g'. split; [erewrite bind_ok by exact E1; exact E'|].
      rewrite Lb, Lo, Hh, B1, O1, !length_insert, H1.
      repeat split; try reflexivity.
      intros k c o Hc Ho. unfold visits. simpl count_occ.
      destruct (Z.eq_dec i (Z.of_nat k)) as [->|Hne].
      * rewrite Nat2Z.id in *.
        assert (ci = c) as -> by congruence. assert (oi = o) as -> by congruence.
        destruct (P k (batch_current prefix poff loff c) (batch_original prefix poff loff c o))
          as (c' & o' & Hc' & Ho' & Eff).
        { rewrite B1. apply list_lookup_insert_eq. eauto using lookup_lt_Some. }
        { rewrite O1. apply list_lookup_insert_eq. eauto using lookup_lt_Some. }
        exists c', o'. auto using batch_effect_round.
      * apply P.
        -- rewrite B1, list_lookup_insert_ne by lia. exact Hc.
        -- rewrite O1, list_lookup_insert_ne by lia. exact Ho.
    + rewrite (bind_ok _ _ g g tt) by (apply batch_round_skip; exact Hi).
      destruct (IH g Hlen) as (g' & E' & Lb & Lo & Hh & P).
      exists g'. repeat split; try assumption.
      intros k c o Hc Ho. unfold visits. simpl count_occ.
      destruct (Z.eq_dec i (Z.of_nat k)) as [->|Hne].
      * apply lookup_lt_Some in Hc. unfold len in Hi. lia.
      * apply P; assumption.
Qed.

(** C1: in a store whose two lists have equal length, every edit returns
    without raising and leaves the lists of equal length, having made the
    same change at the same positions of both: [add_bookmark] appends the
    same entry to both, [remove_bookmark] deletes the same position,
    [update_bookmark] writes the same given fields at the same position,
    [move_bookmark] exchanges the same two positions, and
    [batch_update_bookmarks] gives each visited position the same prefix
    copies, the same page shift and one common clamped level. *)
Theorem edits_keep_lists_aligned (g : generator) :
  length (bookmarks g) = length (original_bookmarks g) ->
  (forall t p l, exists g',
      add_bookmark t p l g = (Ok tt, g')
      /\ length (bookmarks g') = length (original_bookmarks g')
      /\ bookmarks g' = bookmarks g ++ [Bookmark t p l]
      /\ original_bookmarks g' = original_bookmarks g ++ [Bookmark t p l])
  /\ (forall index, 0 <= index < len (bookmarks g) -> exists g',
      remove_bookmark index g = (Ok tt, g')
      /\ length (bookmarks g') = length (original_bookmarks g')
      /\ bookmarks g' = delete (Z.to_nat index) (bookmarks g)
      /\ original_bookmarks g' = delete (Z.to_nat index) (original_bookmarks g))
  /\ (forall index t p l, 0 <= index < len (bookmarks g) -> exists g',
      update_bookmark index t p l g = (Ok tt, g')
      /\ length (bookmarks g') = length (original_bookmarks g')
      /\ bookmarks g' = alter (update_fields t p l) (Z.to_nat index) (bookmarks g)
      /\ original_bookmarks g'
           = alter (update_fields t p l) (Z.to_nat index) (original_bookmarks g))
  /\ (forall index direction, 0 <= index < len (bookmarks g) -> exists g',
      move_bookmark index direction g = (Ok tt, g')
      /\ length (bookmarks g') = length (original_bookmarks g')
      /\ forall k,
           let j := Z.to_nat (move_target index direction (len (bookmarks g))) in
           bookmarks g' !! k = bookmarks g !! transpose (Z.to_nat index) j k
           /\ original_bookmarks g' !! k
                = original_bookmarks g !! transpose (Z.to_nat index) j k)
  /\ (forall indices prefix poff loff, exists g',
      batch_update_bookmarks indices prefix poff loff g = (Ok tt, g')
      /\ length (bookmarks g') = length (original_bookmarks g')
      /\ forall k c o,
           bookmarks g !! k = Some c -> original_bookmarks g !! k = Some o ->
           exists c' o',
             bookmarks g' !! k = Some c' /\ original_bookmarks g' !! k = Some o'
             /\ batch_effect (visits indices k) prefix poff loff c o c' o').
Proof.
  intros Hlen. split; [|split; [|split; [|split]]].
  - intros t p l. eexists. split; [reflexivity|]. simpl.
    split; [rewrite !length_app, Hlen; reflexivity | split; reflexivity].
  - intros index Hi.
    destruct (remove_bookmark_ok g index Hlen Hi) as (g' & E & B & O).
    exists g'. rewrite B, O.
    rewrite !length_delete by (apply lookup_lt_is_Some_2; unfold len in Hi; lia).
    rewrite Hlen. repeat split; assumption || reflexivity.
  - intros index t p l Hi.
    destruct (update_bookmark_ok g index t p l Hlen Hi) as (g' & E & B & O).
    exists g'. rewrite B, O, !length_alter. repeat split; assumption || reflexivity.
  - intros index direction Hi.
    destruct (move_bookmark_ok g index direction Hlen Hi) as (g' & E & Lb & Lo & P).
    exists g'. rewrite Lb, Lo. split; [exact E|]. split; [exact Hlen|]. intros k. apply P.
  - intros indices prefix poff loff.
    destruct (for_each_batch prefix poff loff indices (save_state g).2 Hlen)
      as (g' & E & Lb & Lo & _ & P).
    exists g'. split; [|split].
    + unfold batch_update_bookmarks. erewrite bind_ok by reflexivity.
      erewrite bind_ok by exact E. reflexivity.
    + rewrite Lb, Lo. exact Hlen.
    + exact P.
Qed.

Lemma edits_keep_lists_aligned_witness :
  let g := Generator None
             [Bookmark (u "a") (Some 3) 0; Bookmark (u "b") None 1]
             [Bookmark (u "a") (Some 1) 0; Bookmark (u "b") None 1] 2 [] in
  length (bookmarks g) = length (original_bookmarks g)
  /\ exists g', remove_bookmark 1 g = (Ok tt, g')
       /\ length (bookmarks g') = length (original_bookmarks g')
       /\ bookmarks g' = delete (Z.to_nat 1) (bookmarks g)
       /\ original_bookmarks g' = delete (Z.to_nat 1) (original_bookmarks g).
Proof.
  intros g. split; [reflexivity|].
  refine (proj1 (proj2 (edits_keep_lists_aligned g _)) 1 _); [reflexivity|].
  unfold len. simpl. lia.
Defined.

(** ** The offset engine *)

Section OffsetEngine.
Import Heap.

Lemma shift_page_back (k : Z) (b : bookmark) :
  shift_page (- k) (shift_page k b) = b.
Proof.
  destruct b as [t [p|] l]; unfold shift_page; simpl; [|reflexivity].
  unfold set_page. simpl. do 2 f_equal. lia.
Qed.

Lemma shift_page_null (k : Z) (b : bookmark) :
  page b = None -> shift_page k b = b.
Proof. intros H. unfold shift_page. rewrite H. reflexivity. Qed.

Lemma fresh_lookup (h : heap) : h !! fresh (dom h) = None.
Proof. apply not_elem_of_dom. apply is_fresh. Qed.

Lemma offset_loop_spec (k : Z) (res : loc) (items : list loc) :
  forall (entries : list bookmark) (h : heap) (acc : list loc),
    holds h items entries ->
    h !! res = Some (List acc) ->
    exists h' news,
      offset_loop k items res h = Returns tt h'
      /\ h' !! res = Some (List (acc ++ news))
      /\ holds h' news (shift_page k <$> entries)
      /\ (forall l o, l <> res -> h !! l = Some o -> h' !! l = Some o)
      /\ Forall (fun l => l ∉ dom h) news.
Proof.
  induction items as [|b items IH]; intros entries h acc Hh Hres.
  - apply Forall2_nil_inv_l in Hh as ->.
    exists h, []. rewrite app_nil_r. repeat split; auto. constructor.
  - apply Forall2_cons_inv_l in Hh as (d & ds & Hb & Hds & ->).
    simpl offset_loop. rewrite Hb. unfold alloc.
    set (nb := fresh (dom h)).
    assert (Hnb : h !! nb = None) by apply fresh_lookup.
    assert (Hne : nb <> res) by congruence.
    set (h1 := match page d with
               | Some p => <[nb := Dict (set_page (Some (p + k)) d)]> (<[nb := Dict d]> h)
               | None => <[nb := Dict d]> h
               end).
    assert (E1 : h1 = <[nb := Dict (shift_page k d)]> h).
    { subst h1. unfold shift_page. destruct (page d); [apply insert_insert_eq | reflexivity]. }
    rewrite E1. rewrite lookup_insert_ne by exact Hne. rewrite Hres.
    set (h2 := <[res := List (acc ++ [nb])]> (<[nb := Dict (shift_page k d)]> h)).
    assert (Keep : forall l o, l <> res -> h !! l = Some o -> h2 !! l = Some o).
    { intros l o Hl Ho. subst h2.
      rewrite lookup_insert_ne by congruence.
      rewrite lookup_insert_ne by congruence. exact Ho. }
    destruct (IH ds h2 (acc ++ [nb])) as (h' & news & E & R & Hn & K & F).
    { eapply Forall2_impl; [exact Hds|]. intros l e Hl. apply Keep; congruence. }
    { subst h2. apply lookup_insert_eq. }
    exists h', (nb :: news). split; [exact E|]. split; [|split; [|split]].
    + rewrite R, <- app_assoc. reflexivity.
    + simpl. constructor; [|exact Hn].
      apply K; [exact Hne|]. subst h2.
      rewrite lookup_insert_ne by congruence. apply lookup_insert_eq.
    + intros l o Hl Ho. apply K; [exact Hl|]. apply Keep; assumption.
    + constructor; [apply is_fresh|].
      eapply Forall_impl; [exact F|]. intros l Hl Hin. apply Hl.
      apply elem_of_dom in Hin as [o Ho]. apply elem_of_dom.
      destruct (decide (l = res)) as [->|Hlr].
      * subst h2. rewrite lookup_insert_eq. eauto.
      * exists o. apply Keep; assumption.
Qed.

Lemma apply_offset_spec (self_offset : Z) (off : option Z) (h : heap) (bm : loc)
    (items : list loc) (entries : list bookmark) :
  list_at h bm items entries ->
  exists r h' news,
    apply_offset self_offset bm off h = Returns r h'
    /\ list_at h' r news (shift_page (default self_offset off) <$> entries)
    /\ (r ∉ dom h)
    /\ Forall (fun l => l ∉ dom h) news
    /\ (forall l o, h !! l = Some o -> h' !! l = Some o).
Proof.
  intros [Hbm Hh]. unfold apply_offset, alloc.
  set (k := match off with Some k => k | None => self_offset end).
  set (r := fresh (dom h)).
  assert (Hr : h !! r = None) by apply fresh_lookup.
  set (h0 := <[r := List []]> h).
  assert (Keep0 : forall l o, h !! l = Some o -> h0 !! l = Some o).
  { intros l o Ho. subst h0. rewrite lookup_insert_ne by congruence. exact Ho. }
  rewrite (Keep0 _ _ Hbm).
  destruct (offset_loop_spec k r items entries h0 []) as (h' & news & E & R & Hn & K & F).
  { eapply Forall2_impl; [exact Hh|]. intros l e Hl. apply Keep0, Hl. }
  { subst h0. apply lookup_insert_eq. }
  rewrite E. exists r, h', news. split; [reflexivity|].
  split; [|split; [|split]].
  - split; [exact R|]. replace (default self_offset off) with k by (destruct off; reflexivity).
    exact Hn.
  - apply is_fresh.
  - eapply Forall_impl; [exact F|]. intros l Hl Hin. apply Hl.
    subst h0. rewrite dom_insert. set_solver.
  - intros l o Ho. apply K; [congruence|]. apply Keep0, Ho.
Qed.

(** C2: applying an offset and then its negation gives back a list with
    exactly the entries of the input; an entry without a page is the same
    in the result of any offset; and neither call changes an object that
    existed before it, the list and the entries of the result are new. *)
Theorem apply_offset_round_trip (self_offset : Z) (off : option Z) (h : heap) (bm : loc)
    (items : list loc) (entries : list bookmark) :
  list_at h bm items entries ->
  let k := default self_offset off in
  exists r1 h1 items1 r2 h2 items2,
    apply_offset self_offset bm off h = Returns r1 h1
    /\ apply_offset self_offset r1 (Some (- k)) h1 = Returns r2 h2
    /\ list_at h2 r2 items2 entries
    /\ list_at h1 r1 items1 (shift_page k <$> entries)
    /\ (forall i e, entries !! i = Some e -> page e = None ->
          (shift_page k <$> entries) !! i = Some e)
    /\ (forall l o, h !! l = Some o -> h1 !! l = Some o /\ h2 !! l = Some o)
    /\ (forall l o, h1 !! l = Some o -> h2 !! l = Some o)
    /\ (r1 ∉ dom h) /\ Forall (fun l => l ∉ dom h) items1
    /\ (r2 ∉ dom h1) /\ Forall (fun l => l ∉ dom h1) items2.
Proof.
  intros Hin k.
  destruct (apply_offset_spec self_offset off h bm items entries Hin)
    as (r1 & h1 & items1 & E1 & L1 & N1 & F1 & K1).
  destruct (apply_offset_spec self_offset (Some (- k)) h1 r1 items1 _ L1)
    as (r2 & h2 & items2 & E2 & L2 & N2 & F2 & K2).
  exists r1, h1, items1, r2, h2, items2.
  split; [exact E1|]. split; [exact E2|]. split; [|split; [exact L1|]].
  - simpl in L2. rewrite <- list_fmap_compose in L2.
    erewrite (list_fmap_ext _ id), list_fmap_id in L2; [exact L2|].
    intros i e _. apply shift_page_back.
  - split; [|split; [|split; [exact K2|]]].
    + intros i e He Hp. rewrite list_lookup_fmap, He. simpl.
      rewrite shift_page_null by exact Hp. reflexivity.
    + intros l o Ho. split; [apply K1, Ho | apply K2, K1, Ho].
    + auto.
Qed.

Lemma apply_offset_round_trip_witness :
  let h : heap := <[3%positive := List [1%positive; 2%positive]]>
                    (<[1%positive := Dict (Bookmark (u "a") (Some 1) 0)]>
                       (<[2%positive := Dict (Bookmark (u "b") None 1)]> ∅)) in
  let entries := [Bookmark (u "a") (Some 1) 0; Bookmark (u "b") None 1] in
  list_at h 3%positive [1%positive; 2%positive] entries
  /\ exists r1 h1 items1 r2 h2 items2,
    apply_offset 0 3%positive (Some 4) h = Returns r1 h1
    /\ apply_offset 0 r1 (Some (- 4)) h1 = Returns r2 h2
    /\ list_at h2 r2 items2 entries
    /\ list_at h1 r1 items1 (shift_page 4 <$> entries)
    /\ (forall i e, entries !! i = Some e -> page e = None ->
          (shift_page 4 <$> entries) !! i = Some e)
    /\ (forall l o, h !! l = Some o -> h1 !! l = Some o /\ h2 !! l = Some o)
    /\ (forall l o, h1 !! l = Some o -> h2 !! l = Some o)
    /\ (r1 ∉ dom h) /\ Forall (fun l => l ∉ dom h) items1
    /\ (r2 ∉ dom h1) /\ Forall (fun l => l ∉ dom h1) items2.
Proof.
  intros h entries.
  assert (H : list_at h 3%positive [1%positive; 2%positive] entries).
  { split; [reflexivity|]. repeat constructor. }
  split; [exact H|].
  exact (apply_offset_round_trip 0 (Some 4) h 3%positive _ entries H).
Defined.

End OffsetEngine.

(** ** The outline writer *)

Section OutlineWriter.
Variable env : environment.
Variable bms : list bookmark.

Lemma level_at_lookup (i : nat) (b : bookmark) :
  bms !! i = Some b -> level_at bms i = level b.
Proof. intros H. unfold level_at. rewrite H. reflexivity. Qed.

Lemma dict_set_fresh (m : list (nat * nat)) (k v : nat) :
  k ∉ keys m -> dict_set m k v = m ++ [(k, v)].
Proof.
  induction m as [|[k' v'] m IH]; intros Hk; simpl; [reflexivity|].
  unfold keys in Hk. simpl in Hk. apply not_elem_of_cons in Hk as [Hne Hk].
  destruct (Nat.eqb_spec k' k) as [E|_]; [congruence|].
  rewrite IH by exact Hk. reflexivity.
Qed.

Lemma dict_get_elem (m : list (nat * nat)) (k : nat) :
  k ∈ keys m -> exists v, dict_get m k = Some v /\ (k, v) ∈ m.
Proof.
  induction m as [|[k' v'] m IH]; intros Hk; unfold keys in Hk; simpl in Hk.
  - apply elem_of_nil in Hk as [].
  - unfold dict_get. simpl. destruct (Nat.eqb_spec k' k) as [->|Hne].
    + exists v'. split; [reflexivity | left].
    + apply elem_of_cons in Hk as [E|Hk]; [congruence|].
      destruct (IH Hk) as (v & Hv & Hin). exists v. split; [exact Hv | right; exact Hin].
Qed.

(** The parent search returns the first scanned key below [i] whose entry
    has a level below [lvl]. *)
Lemma find_parent_spec (i : nat) (lvl : Z) (scan : list nat) :
  Forall (fun k => is_Some (bms !! k)) scan ->
  exists r, find_parent bms i lvl scan = Ok r
    /\ match r with
       | Some p => exists before after,
           scan = before ++ p :: after /\ (p < i)%nat /\ level_at bms p < lvl
           /\ forall q, q ∈ before -> (q < i)%nat -> lvl <= level_at bms q
       | None => forall q, q ∈ scan -> (q < i)%nat -> lvl <= level_at bms q
       end.
Proof.
  induction scan as [|key scan IH]; intros Hall.
  - exists None. split; [reflexivity|]. intros q Hq. apply elem_of_nil in Hq as [].
  - apply Forall_cons in Hall as [[b Hb] Hall].
    destruct (IH Hall) as (r & E & Hr). simpl.
    destruct (Nat.ltb_spec key i) as [Hlt|Hge].
    + rewrite Hb. destruct (Z.ltb_spec (level b) lvl) as [Hl|Hl].
      * exists (Some key). split; [reflexivity|].
        exists [], scan. repeat split; auto.
        -- rewrite (level_at_lookup key b Hb). exact Hl.
        -- intros q Hq. apply elem_of_nil in Hq as [].
      * exists r. split; [exact E|]. destruct r as [p|].
        -- destruct Hr as (before & after & -> & Hp & Hlp & Hbefore).
           exists (key :: before), after. repeat split; auto.
           intros q [->|Hq]%elem_of_cons Hqi; [|auto].
           rewrite (level_at_lookup key b Hb). exact Hl.
        -- intros q [->|Hq]%elem_of_cons Hqi; [|auto].
           rewrite (level_at_lookup key b Hb). exact Hl.
    + exists r. split; [exact E|]. destruct r as [p|].
      * destruct Hr as (before & after & -> & Hp & Hlp & Hbefore).
        exists (key :: before), after. repeat split; auto.
        intros q [->|Hq]%elem_of_cons Hqi; [lia|auto].
      * intros q [->|Hq]%elem_of_cons Hqi; [lia|auto].
Qed.

Lemma nearest_shallower_grow (m : list (nat * nat)) (i n h : nat) (lvl : Z)
    (parent : option nat) :
  (i <= n)%nat ->
  nearest_shallower bms m i lvl parent ->
  nearest_shallower bms (m ++ [(n, h)]) i lvl parent.
Proof.
  intros Hin. destruct parent as [hp|]; simpl.
  - intros (p & Hp & Hpi & Hl & Hbetween). exists p.
    split; [apply elem_of_app; left; exact Hp|]. repeat split; auto.
    intros q hq [Hq|Hq%list_elem_of_singleton]%elem_of_app Hr; [eauto|].
    inversion Hq; subst. lia.
  - intros Hall q hq [Hq|Hq%list_elem_of_singleton]%elem_of_app Hr; [eauto|].
    inversion Hq; subst. lia.
Qed.

Lemma attached_as_grow (st : writer_state) (i h n : nat) (item : outline_item)
    (added : Z) (out : list message) :
  (i <= n)%nat ->
  attached_as env bms st i h ->
  attached_as env bms
    (WriterState (outline st ++ [item]) (bookmark_map st ++ [(n, length (outline st))])
       added out) i h.
Proof.
  intros Hin (b & p & parent & Hb & Hp & Hr & Hl & Ho & Hn).
  exists b, p, parent. repeat split; auto.
  - simpl. apply lookup_app_l_Some. exact Ho.
  - simpl. apply nearest_shallower_grow; assumption.
Qed.

Lemma attached_as_printed (st : writer_state) (i h : nat) (out : list message) :
  attached_as env bms st i h ->
  attached_as env bms
    (WriterState (outline st) (bookmark_map st) (bookmarks_added st) out) i h.
Proof. intros H. exact H. Qed.

Lemma keys_lt_not_elem (m : list (nat * nat)) (n : nat) :
  Forall (fun k => (k < n)%nat) (keys m) -> n ∉ keys m.
Proof.
  intros Hall Hin. rewrite Forall_forall in Hall. specialize (Hall n Hin). lia.
Qed.

(** The invariant does not depend on what was printed, and it holds on
    for later entries. *)
Lemma invariant_printed (n : nat) (st : writer_state) (out : list message) :
  loop_invariant env bms n st ->
  loop_invariant env bms n
    (WriterState (outline st) (bookmark_map st) (bookmarks_added st) out).
Proof. intros [S B C I A]. constructor; simpl; auto. Qed.

Lemma invariant_later (n : nat) (st : writer_state) :
  loop_invariant env bms n st -> loop_invariant env bms (S n) st.
Proof.
  intros [S B C I A]. constructor; auto.
  eapply Forall_impl; [exact B|]. simpl. lia.
Qed.


Lemma print_invariant (n : nat) (st : writer_state) (m : message) :
  loop_invariant env bms n st -> loop_invariant env bms n (print env st m).2.
Proof.
  intros Inv. unfold print. destruct (print_raises env m); simpl; [exact Inv|].
  apply invariant_printed, Inv.
Qed.

Lemma attach_fresh (st : writer_state) (n : nat) (t : py_str) (p : Z)
    (parent : option nat) :
  n ∉ keys (bookmark_map st) ->
  attach env st n t p parent
    = if item_raises env (outline st) t p parent then print env st (ErrItem t)
      else (Ok tt, WriterState (outline st ++ [OutlineItem t p parent])
                     (bookmark_map st ++ [(n, length (outline st))])
                     (bookmarks_added st + 1) (printed st)).
Proof.
  intros Hn. unfold attach, add_outline_item, raised.
  destruct (item_raises env (outline st) t p parent); [reflexivity|].
  rewrite dict_set_fresh by exact Hn. reflexivity.
Qed.

Lemma attach_invariant (n : nat) (st : writer_state) (b : bookmark) (p : Z)
    (parent : option nat) :
  bms !! n = Some b -> page b = Some p ->
  page_in_range env (page b) = true -> 0 <= level b ->
  nearest_shallower bms (bookmark_map st) n (level b) parent ->
  loop_invariant env bms n st ->
  loop_invariant env bms (S n) (attach env st n (title b) (p - 1) parent).2.
Proof.
  intros Hb Hp Hr Hl Hn Inv.
  rewrite attach_fresh by (apply keys_lt_not_elem, (inv_below _ _ _ _ Inv)).
  destruct (item_raises env (outline st) (title b) (p - 1) parent).
  - apply invariant_later, print_invariant, Inv.
  - destruct Inv as [S B C I A]. constructor; simpl.
    + unfold keys. rewrite fmap_app, rev_app_distr. simpl.
      apply SSorted_cons; [exact S|]. apply Forall_rev. exact B.
    + unfold keys. rewrite fmap_app. apply Forall_app. split.
      * eapply Forall_impl; [exact B|]. simpl. lia.
      * repeat constructor.
    + rewrite C. unfold len. rewrite length_app. simpl. lia.
    + rewrite !length_app, I. reflexivity.
    + intros i h [Hin|Hin%list_elem_of_singleton]%elem_of_app.
      * apply attached_as_grow; [|apply A; exact Hin].
        rewrite Forall_forall in B.
        assert (i ∈ keys (bookmark_map st)) as Hk
          by (apply list_elem_of_fmap; exists (i, h); auto).
        specialize (B i Hk). lia.
      * inversion Hin; subst i h. exists b, p, parent. repeat split; auto.
        -- simpl. apply list_lookup_middle. reflexivity.
        -- simpl. apply nearest_shallower_grow; [lia | exact Hn].
Qed.

Lemma elem_of_rev_keys (m : list (nat * nat)) (q : nat) :
  q ∈ rev (keys m) <-> q ∈ keys m.
Proof. rewrite !list_elem_of_In. symmetry. apply in_rev. Qed.

Lemma key_of_pair (m : list (nat * nat)) (q h : nat) : (q, h) ∈ m -> q ∈ keys m.
Proof. intros H. apply list_elem_of_fmap. exists (q, h). auto. Qed.

(** The three ways a round goes: the warning, an attachment under the
    nearest shallower entry, or nothing (a negative level). *)
Lemma outline_step_cases (n : nat) (st : writer_state) (b : bookmark) :
  loop_invariant env bms n st ->
  (page_in_range env (page b) = false
   /\ outline_step env bms st (n, b) = print env st (WarnPage (title b) (page b)))
  \/ (exists p parent,
        page b = Some p /\ page_in_range env (page b) = true /\ 0 <= level b
        /\ nearest_shallower bms (bookmark_map st) n (level b) parent
        /\ outline_step env bms st (n, b) = attach env st n (title b) (p - 1) parent)
  \/ (page_in_range env (page b) = true /\ level b < 0
      /\ outline_step env bms st (n, b) = (Ok tt, st)).
Proof.
  intros Inv. unfold outline_step.
  destruct (page b) as [p|] eqn:Hp; [|left; split; reflexivity].
  destruct ((1 <=? p) && (p <=? num_pages env)) eqn:Hr;
    [|left; split; [exact Hr | reflexivity]].
  right. simpl. rewrite Hr.
  destruct (Z.eqb_spec (level b) 0) as [Hz|Hnz].
  - left. exists p, None. repeat split; auto; [lia|].
    intros q hq Hq Hqn. destruct (inv_attached _ _ _ _ Inv q hq Hq)
      as (bq & _ & _ & Hbq & _ & _ & Hlq & _).
    rewrite (level_at_lookup q bq Hbq). lia.
  - destruct (Z.ltb_spec 0 (level b)) as [Hpos|Hneg];
      [|right; repeat split; auto; lia].
    left.
    destruct (find_parent_spec n (level b) (rev (keys (bookmark_map st))))
      as (r & E & Hres).
    { apply Forall_forall. intros q Hq%elem_of_rev_keys.
      apply list_elem_of_fmap in Hq as ([q' h] & -> & Hin).
      destruct (inv_attached _ _ _ _ Inv q' h Hin) as (bq & _ & _ & Hbq & _).
      simpl. eauto. }
    rewrite E. destruct r as [pk|].
    + destruct Hres as (before & after & Hscan & Hpk & Hlpk & Hbefore).
      assert (Hin : pk ∈ keys (bookmark_map st)).
      { apply elem_of_rev_keys. rewrite Hscan. apply elem_of_app. right. left. }
      destruct (dict_get_elem _ _ Hin) as (hp & Hget & Hpair). rewrite Hget.
      exists p, (Some hp). repeat split; auto; [lia|].
      exists pk. repeat split; auto.
      intros q hq Hq [Hlo Hhi]. apply Hbefore; [|exact Hhi].
      pose proof (inv_sorted _ _ _ _ Inv) as Hs. rewrite Hscan in Hs.
      apply key_of_pair, elem_of_rev_keys in Hq. rewrite Hscan in Hq.
      apply elem_of_app in Hq as [Hq|Hq]; [exact Hq|].
      apply StronglySorted_app_1_r, StronglySorted_inv in Hs as [_ Hs].
      apply elem_of_cons in Hq as [->|Hq]; [lia|].
      rewrite Forall_forall in Hs.
      specialize (Hs q Hq). simpl in Hs. lia.
    + exists p, None. repeat split; auto; [lia|].
      intros q hq Hq Hqn. apply Hres; [|exact Hqn].
      apply elem_of_rev_keys, key_of_pair with hq. exact Hq.
Qed.

Lemma outline_step_invariant (n : nat) (st : writer_state) (b : bookmark) :
  bms !! n = Some b ->
  loop_invariant env bms n st ->
  loop_invariant env bms (S n) (outline_step env bms st (n, b)).2.
Proof.
  intros Hb Inv.
  destruct (outline_step_cases n st b Inv)
    as [[_ ->]|[(p & parent & Hp & Hr & Hl & Hnear & ->)|(_ & _ & ->)]].
  - apply invariant_later, print_invariant, Inv.
  - apply attach_invariant; assumption.
  - apply invariant_later, Inv.
Qed.


Lemma enumerate_snoc {A} (l : list A) (x : A) :
  enumerate (l ++ [x]) = enumerate l ++ [(length l, x)].
Proof. unfold enumerate. rewrite imap_app. simpl. rewrite Nat.add_0_r. reflexivity. Qed.

Lemma outline_run_snoc (l : list (nat * bookmark)) (x : nat * bookmark) :
  outline_run env bms (l ++ [x]) = outline_round env bms (outline_run env bms l) x.
Proof. unfold outline_run. rewrite fold_left_app. reflexivity. Qed.

Lemma outline_loop_prefix (pre post : list bookmark) :
  bms = pre ++ post ->
  loop_invariant env bms (length pre) (outline_loop env bms (enumerate pre)).
Proof.
  revert post. induction pre as [|b pre IH] using rev_ind; intros post Hbms.
  - constructor; simpl; try reflexivity; try constructor.
    intros i h Hin. apply elem_of_nil in Hin as [].
  - assert (Hbms' : bms = pre ++ [b] ++ post)
      by (rewrite Hbms, <- app_assoc; reflexivity).
    specialize (IH _ Hbms'). unfold outline_loop in *.
    rewrite enumerate_snoc, outline_run_snoc, length_app. simpl. rewrite Nat.add_1_r.
    destruct (outline_run env bms (enumerate pre)) as [[[]|e] st]; simpl in *.
    + apply outline_step_invariant; [|exact IH].
      rewrite Hbms'. apply list_lookup_middle. reflexivity.
    + apply invariant_later, IH.
Qed.

Lemma outline_loop_invariant :
  loop_invariant env bms (length bms) (outline_loop env bms (enumerate bms)).
Proof. apply (outline_loop_prefix bms []). rewrite app_nil_r. reflexivity. Qed.




End OutlineWriter.

Lemma sorted_keys_NoDup (l : list nat) :
  StronglySorted (fun a b => (b < a)%nat) l -> NoDup l.
Proof.
  induction 1 as [|a l S IH F]; constructor; [|exact IH].
  intros Hin. rewrite Forall_forall in F. specialize (F a Hin). lia.
Qed.






(* ===================================================================== *)
(** * Part III: further properties of the code                             *)
(* ===================================================================== *)

(** ** The undo log, continued *)

Lemma deque_append_snoc {A} (d : list A) (x : A) :
  deque_append d x = drop (length d - 4) d ++ [x].
Proof.
  unfold deque_append, maxlen. rewrite length_app. simpl.
  rewrite drop_app_le by lia. f_equal. f_equal. lia.
Qed.

(** X1: [save_state] puts the current lists and offset last in the log,
    keeps before it the (at most four) newest snapshots it held, and so
    never holds more than five. *)
Theorem save_state_log (g : generator) :
  exists older,
    save_state g = (Ok tt, with_history (older ++ [Snapshot (bookmarks g)
                              (original_bookmarks g) (offset g)]) g)
    /\ older = drop (length (history g) - 4) (history g)
    /\ length older = Nat.min (length (history g)) 4.
Proof.
  exists (drop (length (history g) - 4) (history g)).
  split; [|split; [reflexivity|]].
  - unfold save_state, modify. rewrite deque_append_snoc. reflexivity.
  - rewrite length_drop. lia.
Qed.

Lemma last_item {A} (l : list A) (x : A) :
  norm_index (l ++ [x]) (-1) ≫= ((l ++ [x]) !!.) = Some x.
Proof.
  unfold norm_index, len. rewrite length_app. simpl.
  destruct (Z.leb_spec 0 (-1)); [lia|]. simpl.
  destruct (Z.leb_spec (- Z.of_nat (length l + 1)) (-1)); [|lia]. simpl.
  replace (Z.to_nat (Z.of_nat (length l + 1) + -1)) with (length l) by lia.
  apply list_lookup_middle. reflexivity.
Qed.

(** X2: with at least two snapshots in the log, [undo] returns [True],
    drops the newest snapshot and restores the lists and the offset of
    the one before it. *)
Theorem undo_restores_previous (g : generator) (older : list snapshot)
    (s1 s2 : snapshot) :
  history g = older ++ [s1; s2] ->
  undo g = (Ok true,
            Generator (uploaded_file g) (s_bookmarks s1) (s_original_bookmarks s1)
              (s_offset s1) (older ++ [s1])).
Proof.
  intros Hh. unfold undo.
  erewrite bind_ok by reflexivity.
  replace (1 <? len (history g)) with true
    by (symmetry; apply Z.ltb_lt; unfold len; rewrite Hh, length_app; simpl; lia).
  erewrite bind_ok by reflexivity. erewrite bind_ok by reflexivity.
  simpl history. rewrite Hh.
  replace (older ++ [s1; s2]) with ((older ++ [s1]) ++ [s2])
    by (rewrite <- app_assoc; reflexivity).
  rewrite removelast_last. cbn [history with_history]. rewrite last_item.
  reflexivity.
Qed.

Lemma undo_restores_previous_witness :
  let g := Generator None [Bookmark (u "b") None 0] [] 7
             [Snapshot [] [] 0; Snapshot [Bookmark (u "a") (Some 1) 0] [] 2;
              Snapshot [Bookmark (u "b") None 0] [] 7] in
  undo g = (Ok true,
            Generator None [Bookmark (u "a") (Some 1) 0] [] 2
              [Snapshot [] [] 0; Snapshot [Bookmark (u "a") (Some 1) 0] [] 2]).
Proof.
  intros g.
  exact (undo_restores_previous g [Snapshot [] [] 0]
           (Snapshot [Bookmark (u "a") (Some 1) 0] [] 2)
           (Snapshot [Bookmark (u "b") None 0] [] 7) eq_refl).
Defined.

(** X3: on an object whose log is empty, an edit followed by [undo] is
    not taken back: [undo] returns [False] and the added entry stays in
    both lists. *)
Theorem first_edit_is_not_undone (g : generator) (t : py_str) (p : option Z) (l : Z) :
  history g = [] ->
  exists g', (add_bookmark t p l ;; undo)%py g = (Ok false, g')
    /\ bookmarks g' = bookmarks g ++ [Bookmark t p l]
    /\ original_bookmarks g' = original_bookmarks g ++ [Bookmark t p l].
Proof.
  intros Hh. eexists. split.
  - erewrite bind_ok by reflexivity. apply undo_empty_handed.
    simpl. rewrite Hh. simpl. lia.
  - split; reflexivity.
Qed.

Lemma first_edit_is_not_undone_witness :
  let g := Generator None [] [] 0 [] in
  exists g', (add_bookmark (u "a") (Some 1) 0 ;; undo)%py g = (Ok false, g')
    /\ bookmarks g' = bookmarks g ++ [Bookmark (u "a") (Some 1) 0]
    /\ original_bookmarks g' = original_bookmarks g ++ [Bookmark (u "a") (Some 1) 0].
Proof. intros g. exact (first_edit_is_not_undone g (u "a") (Some 1) 0 eq_refl). Defined.

(** X4: after two edits, one [undo] goes back past both: it restores the
    lists and the offset the object had before the first of them. *)
Theorem undo_takes_back_two_edits (g : generator) (t1 t2 : py_str)
    (p1 p2 : option Z) (l1 l2 : Z) :
  exists g', (add_bookmark t1 p1 l1 ;; add_bookmark t2 p2 l2 ;; undo)%py g = (Ok true, g')
    /\ bookmarks g' = bookmarks g
    /\ original_bookmarks g' = original_bookmarks g
    /\ offset g' = offset g.
Proof.
  eexists. split.
  - erewrite bind_ok by reflexivity. erewrite bind_ok by reflexivity.
    eapply undo_restores_previous.
    cbn [history with_history put_list with_bookmarks with_original the_list
         bookmarks original_bookmarks offset].
    rewrite !deque_append_snoc. rewrite length_app. simpl length.
    rewrite drop_app_le by lia. rewrite <- app_assoc. reflexivity.
  - repeat split; reflexivity.
Qed.


(** ** Edits on lists of different length *)

Lemma norm_index_out {A} (l : list A) (i : Z) :
  len l <= i -> norm_index l i = None.
Proof.
  intros Hi. unfold norm_index. pose proof (Nat2Z.is_nonneg (length l)). unfold len in *.
  destruct (Z.ltb_spec i (Z.of_nat (length l))); [lia|]. rewrite andb_false_r.
  destruct (Z.ltb_spec i 0); [lia|]. rewrite andb_false_r. reflexivity.
Qed.

(** X5: when [original_bookmarks] is too short for an index that
    [bookmarks] has, [remove_bookmark] raises [IndexError] after it has
    recorded the snapshot and deleted the entry of [bookmarks]: the
    object is left with one list changed and the other not. *)
Theorem remove_bookmark_raises_half_done (g : generator) (index : Z) :
  0 <= index < len (bookmarks g) ->
  len (original_bookmarks g) <= index ->
  exists g', remove_bookmark index g = (Raise IndexError, g')
    /\ bookmarks g' = delete (Z.to_nat index) (bookmarks g)
    /\ original_bookmarks g' = original_bookmarks g
    /\ history g' = (save_state g).2.(history).
Proof.
  intros Hi Ho. eexists. split.
  - unfold remove_bookmark. erewrite bind_ok by reflexivity. unfold when.
    replace (in_bounds index g) with true by (symmetry; apply in_bounds_true; exact Hi).
    erewrite bind_ok by reflexivity.
    erewrite bind_ok by (apply delitem_ok; in_range).
    unfold bind, delitem. cbn [the_list put_list with_bookmarks original_bookmarks].
    rewrite norm_index_out by (simpl; exact Ho). reflexivity.
  - repeat split; reflexivity.
Qed.

Lemma remove_bookmark_raises_half_done_witness :
  let g := Generator None [Bookmark (u "a") None 0; Bookmark (u "b") None 0]
             [Bookmark (u "a") None 0] 0 [] in
  exists g', remove_bookmark 1 g = (Raise IndexError, g')
    /\ bookmarks g' = delete (Z.to_nat 1) (bookmarks g)
    /\ original_bookmarks g' = original_bookmarks g
    /\ history g' = (save_state g).2.(history).
Proof.
  intros g. apply remove_bookmark_raises_half_done; unfold len; simpl; lia.
Defined.

(** ** Searching and filtering *)

Section Collect.
Variable test : bookmark -> bool.

Lemma collect_list_snoc (l : list bookmark) (x : bookmark) :
  collect_list test (l ++ [x])
    = collect_list test l ++ (if test x then [Hit (length l) x] else []).
Proof.
  unfold collect_list. rewrite enumerate_snoc, fold_left_app. simpl.
  destruct (test x); [reflexivity | rewrite app_nil_r; reflexivity].
Qed.

Lemma collect_list_elem (l : list bookmark) (i : nat) (b : bookmark) :
  Hit i b ∈ collect_list test l <-> l !! i = Some b /\ test b = true.
Proof.
  induction l as [|x l IH] using rev_ind.
  - simpl. split; [intros H; apply elem_of_nil in H as [] | intros [H _]; discriminate H].
  - rewrite collect_list_snoc, elem_of_app, IH. split.
    + intros [[Hl Ht]|Hin].
      * split; [apply lookup_app_l_Some; exact Hl | exact Ht].
      * destruct (test x) eqn:Hx; [|apply elem_of_nil in Hin as []].
        apply list_elem_of_singleton in Hin. inversion Hin; subst.
        split; [apply list_lookup_middle; reflexivity | exact Hx].
    + intros [Hl Ht]. apply lookup_app_Some in Hl as [Hl|[Hlen Hl]].
      * left. auto.
      * right. destruct (i - length l)%nat eqn:E; [|destruct n; discriminate Hl].
        simpl in Hl. inversion Hl; subst. rewrite Ht.
        replace i with (length l) by lia. left.
Qed.

Lemma collect_list_sorted (l : list bookmark) :
  StronglySorted lt (hit_index <$> collect_list test l)
  /\ Forall (fun i => (i < length l)%nat) (hit_index <$> collect_list test l).
Proof.
  induction l as [|x l [IHs IHb]] using rev_ind.
  - split; constructor.
  - rewrite collect_list_snoc, fmap_app, length_app. simpl. split.
    + apply StronglySorted_app_2; [|exact IHs|destruct (test x); repeat constructor].
      intros a b Ha Hb. rewrite Forall_forall in IHb. specialize (IHb a Ha).
      destruct (test x); [|apply elem_of_nil in Hb as []].
      apply list_elem_of_singleton in Hb. simpl in Hb. lia.
    + apply Forall_app. split.
      * eapply Forall_impl; [exact IHb|]. simpl. lia.
      * destruct (test x); repeat constructor. simpl. lia.
Qed.

End Collect.

(** X6: [filter_bookmarks_by_level] returns exactly the entries of
    [bookmarks] with the given level, each with its own position, in
    increasing order of position. *)
Theorem filter_by_level_exact (g : generator) (lvl : Z) :
  (forall i b, Hit i b ∈ filter_bookmarks_by_level lvl g
               <-> bookmarks g !! i = Some b /\ level b = lvl)
  /\ StronglySorted lt (hit_index <$> filter_bookmarks_by_level lvl g).
Proof.
  unfold filter_bookmarks_by_level, collect. split.
  - intros i b. rewrite collect_list_elem, bool_decide_eq_true. reflexivity.
  - apply collect_list_sorted.
Qed.

Lemma contains_empty (s : py_str) : contains s [] = true.
Proof. destruct s; reflexivity. Qed.

Lemma collect_list_all (l : list bookmark) (test : bookmark -> bool) :
  (forall b, test b = true) -> collect_list test l = imap Hit l.
Proof.
  intros Hall. induction l as [|x l IH] using rev_ind; [reflexivity|].
  rewrite collect_list_snoc, IH, Hall, imap_app. simpl.
  rewrite Nat.add_0_r. reflexivity.
Qed.

(** X7: [search_bookmarks] returns exactly the entries whose lower-cased
    title contains the lower-cased keyword, each with its own position,
    in increasing order of position; the empty keyword (whose lower case
    is empty) returns every entry. *)
Theorem search_exact (lower : py_str -> py_str) (g : generator) (keyword : py_str) :
  (forall i b, Hit i b ∈ search_bookmarks lower keyword g
               <-> bookmarks g !! i = Some b
                   /\ contains (lower (title b)) (lower keyword) = true)
  /\ StronglySorted lt (hit_index <$> search_bookmarks lower keyword g)
  /\ (lower keyword = [] -> search_bookmarks lower keyword g = imap Hit (bookmarks g)).
Proof.
  unfold search_bookmarks, collect. split; [|split].
  - intros i b. apply collect_list_elem.
  - apply collect_list_sorted.
  - intros Hk. apply collect_list_all. intros b. rewrite Hk. apply contains_empty.
Qed.

Lemma search_exact_witness :
  let g := Generator None [Bookmark (u "Intro") None 0; Bookmark (u "End") None 0] [] 0 [] in
  search_bookmarks id [] g = imap Hit (bookmarks g).
Proof. intros g. exact (proj2 (proj2 (search_exact id g [])) eq_refl). Defined.

(** ** The offset engine, continued *)

(** X8: [calculate_offset] is never negative; for a positive start page
    it is that page minus one, whatever the object stores, and without a
    positive argument or stored value it is 0. *)
Theorem calculate_offset_range (stored given : option Z) :
  0 <= calculate_offset stored given
  /\ (forall c, given = Some c -> 0 < c -> calculate_offset stored given = c - 1)
  /\ ((forall c, given = Some c -> c <= 0) ->
      (forall c, stored = Some c -> c <= 0) ->
      calculate_offset stored given = 0).
Proof.
  unfold calculate_offset. split; [|split].
  - destruct given as [c|], stored as [c'|];
      repeat match goal with |- context [0 <? ?x] => destruct (Z.ltb_spec 0 x) end; lia.
  - intros c -> Hc. destruct (Z.ltb_spec 0 c); [reflexivity | lia].
  - intros Hg Hs. destruct given as [c|], stored as [c'|];
      repeat match goal with |- context [0 <? ?x] => destruct (Z.ltb_spec 0 x) end;
      try reflexivity;
      try (specialize (Hg _ eq_refl)); try (specialize (Hs _ eq_refl)); lia.
Qed.

Section OffsetEngineMore.
Import Heap.

(** X9: [apply_offset] returns as many entries as it was given, each
    with the title and the level of the entry at the same position, and
    with the page moved by the offset, or still null. *)
Theorem apply_offset_keeps_titles_and_levels (self_offset : Z) (off : option Z)
    (h : heap) (bm : loc) (items : list loc) (entries : list bookmark) :
  list_at h bm items entries ->
  exists r h' items' entries',
    apply_offset self_offset bm off h = Returns r h'
    /\ list_at h' r items' entries'
    /\ length entries' = length entries
    /\ forall i e', entries' !! i = Some e' ->
         exists e, entries !! i = Some e
           /\ title e' = title e /\ level e' = level e
           /\ page e' = (fun p => p + default self_offset off) <$> page e.
Proof.
  intros Hin.
  destruct (apply_offset_spec self_offset off h bm items entries Hin)
    as (r & h' & items' & E & L & _).
  exists r, h', items', (shift_page (default self_offset off) <$> entries).
  split; [exact E|]. split; [exact L|]. split; [apply length_fmap|].
  intros i e' He'. rewrite list_lookup_fmap in He'.
  destruct (entries !! i) as [e|]; [|discriminate He'].
  simpl in He'. inversion He'; subst e'. exists e. split; [reflexivity|].
  unfold shift_page. destruct e as [t [p|] l]; simpl; auto.
Qed.

Lemma apply_offset_keeps_titles_and_levels_witness :
  let h : heap := <[3%positive := List [1%positive]]>
                    (<[1%positive := Dict (Bookmark (u "a") (Some 1) 0)]> ∅) in
  let entries := [Bookmark (u "a") (Some 1) 0] in
  exists r h' items' entries',
    apply_offset 5 3%positive None h = Returns r h'
    /\ list_at h' r items' entries'
    /\ length entries' = length entries
    /\ forall i e', entries' !! i = Some e' ->
         exists e, entries !! i = Some e
           /\ title e' = title e /\ level e' = level e
           /\ page e' = (fun p => p + default 5 None) <$> page e.
Proof.
  intros h entries.
  apply (apply_offset_keeps_titles_and_levels 5 None h 3%positive [1%positive] entries).
  split; [reflexivity | repeat constructor].
Defined.

Lemma shift_page_add (k j : Z) (b : bookmark) :
  shift_page j (shift_page k b) = shift_page (k + j) b.
Proof.
  destruct b as [t [p|] l]; unfold shift_page; simpl; [|reflexivity].
  unfold set_page. simpl. do 2 f_equal. lia.
Qed.

(** X10: offsets add up: applying [k] and then [j] to the result gives
    the entries that one application of [k + j] to the input gives. *)
Theorem apply_offset_accumulates (self_offset k j : Z) (h : heap) (bm : loc)
    (items : list loc) (entries : list bookmark) :
  list_at h bm items entries ->
  exists r1 h1 r2 h2 items2 r3 h3 items3 result,
    apply_offset self_offset bm (Some k) h = Returns r1 h1
    /\ apply_offset self_offset r1 (Some j) h1 = Returns r2 h2
    /\ apply_offset self_offset bm (Some (k + j)) h = Returns r3 h3
    /\ list_at h2 r2 items2 result
    /\ list_at h3 r3 items3 result.
Proof.
  intros Hin.
  destruct (apply_offset_spec self_offset (Some k) h bm items entries Hin)
    as (r1 & h1 & items1 & E1 & L1 & _).
  destruct (apply_offset_spec self_offset (Some j) h1 r1 items1 _ L1)
    as (r2 & h2 & items2 & E2 & L2 & _).
  destruct (apply_offset_spec self_offset (Some (k + j)) h bm items entries Hin)
    as (r3 & h3 & items3 & E3 & L3 & _).
  exists r1, h1, r2, h2, items2, r3, h3, items3, (shift_page (k + j) <$> entries).
  repeat split; try assumption; try apply L3.
  - apply L2.
  - destruct L2 as [_ L2]. simpl in L2. rewrite <- list_fmap_compose in L2.
    erewrite list_fmap_ext; [exact L2|]. intros i e _. simpl.
    symmetry. apply shift_page_add.
Qed.

Lemma apply_offset_accumulates_witness :
  let h : heap := <[3%positive := List [1%positive]]>
                    (<[1%positive := Dict (Bookmark (u "a") (Some 1) 0)]> ∅) in
  exists r1 h1 r2 h2 items2 r3 h3 items3 result,
    apply_offset 0 3%positive (Some 2) h = Returns r1 h1
    /\ apply_offset 0 r1 (Some 3) h1 = Returns r2 h2
    /\ apply_offset 0 3%positive (Some (2 + 3)) h = Returns r3 h3
    /\ list_at h2 r2 items2 result
    /\ list_at h3 r3 items3 result.
Proof.
  intros h.
  apply (apply_offset_accumulates 0 2 3 h 3%positive [1%positive]
           [Bookmark (u "a") (Some 1) 0]).
  split; [reflexivity | repeat constructor].
Defined.

End OffsetEngineMore.

(** ** The handler's offset requests *)

Lemma appended_images {A B} (f : A -> B) (l : list A) :
  List.fold_left (fun acc ib => acc ++ [f ib.2]) (enumerate l) [] = f <$> l.
Proof.
  induction l as [|x l IH] using rev_ind; [reflexivity|].
  rewrite enumerate_snoc, fold_left_app, IH, fmap_app. reflexivity.
Qed.

(** X11: the [/apply_offset] request never raises, stores the offset and
    leaves [original_bookmarks] alone; afterwards the two lists have the
    same length and every entry of [bookmarks] is the entry of
    [original_bookmarks] at its position with the page moved by the
    offset.  A second request replaces the effect of the first: only the
    last offset counts. *)
Theorem post_apply_offset_recomputes (g : generator) (k1 k2 : Z) :
  (exists g', post_apply_offset k2 g = (Ok tt, g')
     /\ offset g' = k2
     /\ original_bookmarks g' = original_bookmarks g
     /\ history g' = history g
     /\ length (bookmarks g') = length (original_bookmarks g')
     /\ forall i o, original_bookmarks g !! i = Some o ->
          bookmarks g' !! i
            = Some (Bookmark (title o) ((fun p => p + k2) <$> page o) (level o)))
  /\ (post_apply_offset k1 ;; post_apply_offset k2)%py g = post_apply_offset k2 g.
Proof.
  split.
  - eexists. split; [reflexivity|]. simpl.
    split; [reflexivity|]. split; [reflexivity|]. split; [reflexivity|].
    split; [apply length_fmap|].
    intros i o Ho. unfold apply_offset_by_value. rewrite list_lookup_fmap, Ho. simpl.
    f_equal. unfold shift_page. destruct o as [t [p|] l]; reflexivity.
  - reflexivity.
Qed.

(** X12: the preview of an offset shows, for every entry of
    [original_bookmarks], its title, its page and the page the
    [/apply_offset] request with the same offset then gives the entry of
    [bookmarks] at that position. *)
Theorem preview_offset_matches_apply (g : generator) (k : Z) :
  length (preview_offset k g) = length (original_bookmarks g)
  /\ forall i c, preview_offset k g !! i = Some c ->
       exists o b, original_bookmarks g !! i = Some o
         /\ bookmarks (post_apply_offset k g).2 !! i = Some b
         /\ change_title c = title o
         /\ original_page c = page o
         /\ new_page c = page b.
Proof.
  unfold preview_offset.
  rewrite (appended_images
             (fun b => Change (title b) (page b)
                         match page b with Some p => Some (p + k) | None => None end)).
  split; [apply length_fmap|].
  intros i c Hc. rewrite list_lookup_fmap in Hc.
  destruct (original_bookmarks g !! i) as [o|] eqn:Ho; [|discriminate Hc].
  simpl in Hc. inversion Hc; subst c. exists o, (shift_page k o).
  split; [reflexivity|]. split.
  - simpl. unfold apply_offset_by_value. rewrite list_lookup_fmap, Ho. reflexivity.
  - simpl. unfold shift_page. destruct o as [t [p|] l]; auto.
Qed.

(** ** [escape_html] *)

Lemma html_escape_table_points :
  html_escape_table
    = [ (38, [38; 97; 109; 112; 59]); (34, [38; 113; 117; 111; 116; 59]);
        (39, [38; 35; 120; 50; 55; 59]); (62, [38; 103; 116; 59]);
        (60, [38; 108; 116; 59]) ]%N.
Proof. vm_compute. reflexivity. Qed.

Lemma table_get_cases (c : N) :
  (c = 38 /\ table_get html_escape_table c = [38; 97; 109; 112; 59])%N
  \/ (c = 34 /\ table_get html_escape_table c = [38; 113; 117; 111; 116; 59])%N
  \/ (c = 39 /\ table_get html_escape_table c = [38; 35; 120; 50; 55; 59])%N
  \/ (c = 62 /\ table_get html_escape_table c = [38; 103; 116; 59])%N
  \/ (c = 60 /\ table_get html_escape_table c = [38; 108; 116; 59])%N
  \/ (c <> 38 /\ c <> 34 /\ c <> 39 /\ c <> 62 /\ c <> 60
      /\ table_get html_escape_table c = [c])%N.
Proof.
  rewrite html_escape_table_points. unfold table_get. cbn [List.find fst snd].
  destruct (N.eqb_spec 38 c); [subst; tauto|].
  destruct (N.eqb_spec 34 c); [subst; tauto|].
  destruct (N.eqb_spec 39 c); [subst; tauto|].
  destruct (N.eqb_spec 62 c); [subst; tauto|].
  destruct (N.eqb_spec 60 c); [subst; tauto|].
  repeat right. repeat split; congruence.
Qed.

Lemma escape_html_cons (c : N) (text : py_str) :
  escape_html (c :: text) = table_get html_escape_table c ++ escape_html text.
Proof. reflexivity. Qed.

(** X13: the text [escape_html] returns contains none of the characters
    [<], [>], double quote and single quote; a text without the five
    special characters is returned as it is. *)
Theorem escape_html_is_safe (text : py_str) :
  (forall c, c ∈ escape_html text ->
     c <> chr "<" /\ c <> chr ">" /\ c <> 34%N /\ c <> chr "'")
  /\ ((forall c, c ∈ text -> c ∉ html_escape_table.*1) -> escape_html text = text).
Proof.
  split.
  - induction text as [|x text IH]; intros c Hc.
    + apply elem_of_nil in Hc as [].
    + rewrite escape_html_cons in Hc. apply elem_of_app in Hc as [Hc|Hc]; [|auto].
      change (chr "<") with 60%N. change (chr ">") with 62%N. change (chr "'") with 39%N.
      destruct (table_get_cases x)
        as [[_ E]|[[_ E]|[[_ E]|[[_ E]|[[_ E]|(H1 & H2 & H3 & H4 & H5 & E)]]]]];
        rewrite E in Hc;
        repeat (apply elem_of_cons in Hc as [->|Hc]);
        try (apply elem_of_nil in Hc as []);
        repeat split; congruence.
  - induction text as [|x text IH]; intros Hnone; [reflexivity|].
    rewrite escape_html_cons, IH by (intros c Hc; apply Hnone; right; exact Hc).
    assert (Hx : x ∉ html_escape_table.*1) by (apply Hnone; left).
    rewrite html_escape_table_points in Hx. simpl in Hx.
    destruct (table_get_cases x)
      as [[-> _]|[[-> _]|[[-> _]|[[-> _]|[[-> _]|(_ & _ & _ & _ & _ & E)]]]]];
      try (exfalso; apply Hx, list_elem_of_In; simpl; tauto).
    rewrite E. reflexivity.
Qed.

Lemma startswith_nil (s : py_str) : startswith s [] = true.
Proof. destruct s; reflexivity. Qed.

Lemma unescape_escape (text : py_str) :
  forall fuel, (length (escape_html text) <= fuel)%nat ->
  unescape_html fuel (escape_html text) = text.
Proof.
  induction text as [|x text IH]; intros fuel Hfuel.
  - destruct fuel; reflexivity.
  - rewrite escape_html_cons in *. rewrite length_app in Hfuel.
    destruct (table_get_cases x)
      as [[-> E]|[[-> E]|[[-> E]|[[-> E]|[[-> E]|(H1 & H2 & H3 & H4 & H5 & E)]]]]];
      rewrite E in *; simpl in Hfuel;
      (destruct fuel as [|fuel]; [lia|]);
      cbn [unescape_html app]; rewrite html_escape_table_points.
    1-5: cbn [List.find startswith fst snd N.eqb Pos.eqb andb length drop];
      rewrite startswith_nil; cbn [fst snd length drop]; rewrite IH by lia; reflexivity.
    cbn [List.find startswith fst snd].
    destruct (N.eqb_spec 38 x) as [E38|_]; [congruence|].
    cbn [andb]. rewrite IH by lia. reflexivity.
Qed.

(** X14: [escape_html] loses nothing: reading the entities back gives
    the text it was applied to, so different texts have different
    escaped forms. *)
Theorem escape_html_round_trip (text : py_str) :
  unescape_html (length (escape_html text)) (escape_html text) = text
  /\ forall text', escape_html text' = escape_html text -> text' = text.
Proof.
  split; [apply unescape_escape; lia|].
  intros text' H.
  rewrite <- (unescape_escape text' (length (escape_html text'))) by lia.
  rewrite H. apply unescape_escape. lia.
Qed.

(** ** The page stitching *)

Lemma fold_add_shift (l : list Z) (a : Z) :
  List.fold_left Z.add l a = a + List.fold_left Z.add l 0.
Proof.
  revert a. induction l as [|x l IH]; intros a; simpl; [lia|].
  rewrite (IH (a + x)), (IH (0 + x)). lia.
Qed.

Lemma fold_max_ge (l : list Z) (a : Z) :
  a <= List.fold_left Z.max l a /\ Forall (fun x => x <= List.fold_left Z.max l a) l.
Proof.
  revert a. induction l as [|x l IH]; intros a; simpl; [split; [lia | constructor]|].
  destruct (IH (Z.max a x)) as [Ha Hl]. split; [lia|].
  constructor; [lia | exact Hl].
Qed.

Lemma stitch_pasted (sizes : list (Z * Z)) :
  forall acc y,
    List.fold_left
      (fun acc size => (acc.1 ++ [(0, acc.2)], acc.2 + size.2)) sizes (acc, y)
    = (acc ++ imap (fun i _ => (0, y + List.fold_left Z.add (List.map snd (take i sizes)) 0)) sizes,
       y + List.fold_left Z.add (List.map snd sizes) 0).
Proof.
  induction sizes as [|[w hgt] sizes IH]; intros acc y; simpl.
  - rewrite app_nil_r, Z.add_0_r. reflexivity.
  - rewrite IH. simpl. rewrite <- app_assoc. simpl.
    rewrite (fold_add_shift (List.map snd sizes) (0 + hgt)), Z.add_0_r.
    f_equal; [|lia]. do 2 f_equal.
    apply imap_ext. intros i x _. simpl.
    rewrite (fold_add_shift _ (0 + hgt)). apply (f_equal (pair 0)).
    lia.
Qed.

(** X15: in the image that stitches the pages (there is at least one),
    page [i] is pasted at the left edge, directly below the pages before
    it (at the sum of their heights); it is no wider than the new image,
    and, the heights being non-negative, it ends within the new image's
    height. *)
Theorem stitch_stacks_pages (sizes : list (Z * Z)) :
  sizes <> [] ->
  Forall (fun size => 0 <= size.2) sizes ->
  exists max_width total_height pasted,
    stitch sizes = Some ((max_width, total_height), pasted)
    /\ length pasted = length sizes
    /\ forall i w hgt, sizes !! i = Some (w, hgt) ->
         exists y, pasted !! i = Some (0, y)
           /\ y = List.fold_left Z.add (List.map snd (take i sizes)) 0
           /\ 0 <= y /\ y + hgt <= total_height
           /\ w <= max_width.
Proof.
  intros Hne Hpos. unfold stitch.
  destruct (List.map fst sizes) as [|w0 ws] eqn:Ew.
  { destruct sizes; [congruence | discriminate Ew]. }
  cbv zeta. rewrite stitch_pasted. simpl.
  eexists _, _, _. split; [reflexivity|].
  split; [rewrite length_imap; reflexivity|].
  intros i w hgt Hi. eexists. split; [|split; [reflexivity|]].
  - rewrite list_lookup_imap, Hi. simpl. reflexivity.
  - assert (Hsum : forall l : list (Z * Z),
               Forall (fun size => 0 <= size.2) l -> 0 <= List.fold_left Z.add (List.map snd l) 0).
    { clear. induction l as [|[a b] l IH]; intros H; simpl; [lia|].
      apply Forall_cons in H as [Hb Hl]. rewrite fold_add_shift.
      specialize (IH Hl). simpl in Hb. lia. }
    pose proof (Hsum (take i sizes) ltac:(apply Forall_take; exact Hpos)) as Hbefore.
    pose proof (Hsum (drop (S i) sizes) ltac:(apply Forall_drop; exact Hpos)) as Hafter.
    split; [lia|]. split.
    + rewrite <- (take_drop_middle _ _ _ Hi) at 2.
      rewrite !map_app, fold_left_app. simpl.
      rewrite (fold_add_shift _ (_ + hgt)). lia.
    + assert (Hw : w ∈ w0 :: ws).
      { rewrite <- Ew. apply list_elem_of_In, in_map_iff. exists (w, hgt).
        split; [reflexivity|]. apply list_elem_of_In.
        eapply list_elem_of_lookup_2. exact Hi. }
      destruct (fold_max_ge ws w0) as [H0 Hall].
      apply elem_of_cons in Hw as [->|Hw]; [exact H0|].
      rewrite Forall_forall in Hall. apply Hall, Hw.
Qed.

Lemma stitch_stacks_pages_witness :
  exists max_width total_height pasted,
    stitch [(10, 20); (12, 5)] = Some ((max_width, total_height), pasted)
    /\ length pasted = length [(10, 20); (12, 5)]
    /\ forall i w hgt, [(10, 20); (12, 5)] !! i = Some (w, hgt) ->
         exists y, pasted !! i = Some (0, y)
           /\ y = List.fold_left Z.add (List.map snd (take i [(10, 20); (12, 5)])) 0
           /\ 0 <= y /\ y + hgt <= total_height
           /\ w <= max_width.
Proof.
  apply (stitch_stacks_pages [(10, 20); (12, 5)]).
  - discriminate.
  - repeat constructor; simpl; lia.
Defined.

(** ** The outline writer, continued *)

Lemma sorted_rev_lookup (l : list nat) :
  StronglySorted (fun a b => (b < a)%nat) (rev l) ->
  forall a b x y, l !! a = Some x -> l !! b = Some y -> (a < b)%nat -> (x < y)%nat.
Proof.
  induction l as [|z l IH] using rev_ind; intros Hs a b x y Ha Hb Hab.
  - discriminate Ha.
  - rewrite rev_app_distr in Hs. simpl in Hs.
    apply StronglySorted_inv in Hs as [Hs Hall].
    apply lookup_app_Some in Hb as [Hb|[Hlen Hb]].
    + apply (IH Hs a b); auto. apply lookup_lt_Some in Hb.
      rewrite lookup_app_l in Ha by lia. exact Ha.
    + destruct (b - length l)%nat eqn:E; [|destruct n; discriminate Hb].
      simpl in Hb. inversion Hb; subst y.
      rewrite lookup_app_l in Ha by lia.
      rewrite Forall_forall in Hall. apply Hall.
      apply list_elem_of_In, in_rev. rewrite rev_involutive.
      apply list_elem_of_In, list_elem_of_lookup. eauto.
Qed.

Section OutlineWriterMore.
Variable env : environment.
Variable bms : list bookmark.

(** Once a round has raised, the rounds after it change nothing. *)
Lemma outline_rounds_raised (entries : list (nat * bookmark)) (e : exn)
    (st : writer_state) :
  List.fold_left (outline_round env bms) entries (Raise e, st) = (Raise e, st).
Proof. induction entries as [|x entries IH]; [reflexivity | exact IH]. Qed.

Lemma outline_run_app (l1 l2 : list (nat * bookmark)) :
  outline_run env bms (l1 ++ l2)
  = List.fold_left (outline_round env bms) l2 (outline_run env bms l1).
Proof. unfold outline_run. apply fold_left_app. Qed.

(** The loop over entries of which one has a page out of range and a
    warning the console refuses: it is left by an exception, with the
    locals the entries before that one gave. *)
Lemma outline_run_refused (pre post : list bookmark) (b : bookmark) :
  bms = pre ++ b :: post ->
  page_in_range env (page b) = false ->
  print_raises env (WarnPage (title b) (page b)) = true ->
  exists e, outline_run env bms (enumerate bms)
            = (Raise e, outline_loop env bms (enumerate pre)).
Proof.
  intros Hbms Hr Hp.
  assert (Hall : enumerate bms
                 = enumerate pre ++ (length pre, b)
                     :: imap (fun i x => (length pre + S i, x)%nat) post).
  { rewrite Hbms. unfold enumerate. rewrite imap_app. simpl.
    rewrite Nat.add_0_r. reflexivity. }
  rewrite Hall, outline_run_app. cbn [List.fold_left]. unfold outline_loop.
  pose proof (outline_loop_prefix env bms pre (b :: post) Hbms) as Inv.
  unfold outline_loop in Inv.
  destruct (outline_run env bms (enumerate pre)) as [[[]|e] st];
    cbn [outline_round snd] in *.
  - destruct (outline_step_cases env bms (length pre) st b Inv)
      as [[_ ->]|[(p & parent & _ & Hr' & _)|(Hr' & _)]]; [|congruence..].
    unfold print. rewrite Hp. exists PrintError. apply outline_rounds_raised.
  - exists e. apply outline_rounds_raised.
Qed.

Lemma attach_handles (st : writer_state) (n : nat) (t : py_str) (p : Z)
    (parent : option nat) :
  n ∉ keys (bookmark_map st) ->
  handles_in_order st ->
  handles_in_order (attach env st n t p parent).2.
Proof.
  intros Hn H. rewrite attach_fresh by exact Hn. unfold print.
  destruct (item_raises env (outline st) t p parent);
    [destruct (print_raises env _); exact H|].
  unfold handles_in_order in *. simpl.
  rewrite fmap_app, length_app, H. simpl. rewrite Nat.add_1_r, seq_S. reflexivity.
Qed.

Lemma outline_step_handles (n : nat) (st : writer_state) (b : bookmark) :
  loop_invariant env bms n st ->
  handles_in_order st ->
  handles_in_order (outline_step env bms st (n, b)).2.
Proof.
  intros Inv H.
  destruct (outline_step_cases env bms n st b Inv)
    as [[_ ->]|[(p & parent & _ & _ & _ & _ & ->)|(_ & _ & ->)]].
  - unfold print. destruct (print_raises env _); exact H.
  - apply attach_handles; [|exact H].
    apply keys_lt_not_elem, (inv_below _ _ _ _ Inv).
  - exact H.
Qed.

Lemma outline_loop_handles (pre post : list bookmark) :
  bms = pre ++ post ->
  handles_in_order (outline_loop env bms (enumerate pre)).
Proof.
  revert post. induction pre as [|b pre IH] using rev_ind; intros post Hbms.
  - reflexivity.
  - assert (Hbms' : bms = pre ++ [b] ++ post)
      by (rewrite Hbms, <- app_assoc; reflexivity).
    specialize (IH _ Hbms').
    pose proof (outline_loop_prefix env bms pre _ Hbms') as Inv.
    unfold outline_loop in *. rewrite enumerate_snoc, outline_run_snoc.
    destruct (outline_run env bms (enumerate pre)) as [[[]|e] st]; simpl in *;
      [|exact IH].
    apply outline_step_handles; assumption.
Qed.

(** X17: every item of the outline that is built stands for an entry of
    [bookmarks]: it carries the entry's title, points to the entry's page
    minus one, which is a page of the document, and its parent, if it
    has one, is an item added before it. *)
Theorem outline_is_well_formed (h : nat) (item : outline_item) :
  outline (outline_loop env bms (enumerate bms)) !! h = Some item ->
  (exists i b, bms !! i = Some b
     /\ item_title item = title b
     /\ page b = Some (item_page item + 1))
  /\ 0 <= item_page item < num_pages env
  /\ (forall hp, item_parent item = Some hp -> (hp < h)%nat).
Proof.
  set (st := outline_loop env bms (enumerate bms)). intros Hitem.
  pose proof (outline_loop_invariant env bms) as Inv. fold st in Inv.
  assert (Hh : handles_in_order st)
    by (apply (outline_loop_handles bms []); rewrite app_nil_r; reflexivity).
  unfold handles_in_order in Hh.
  assert (Hlt : (h < length (outline st))%nat) by eauto using lookup_lt_Some.
  assert (Hseq : (bookmark_map st).*2 !! h = Some h)
    by (rewrite Hh; apply lookup_seq_lt; exact Hlt).
  apply list_lookup_fmap_Some in Hseq as ([i h'] & Eh & Hm). simpl in Eh. subst h'.
  assert (Hin : (i, h) ∈ bookmark_map st) by (apply list_elem_of_lookup; eauto).
  destruct (inv_attached _ _ _ _ Inv i h Hin)
    as (b & p & parent & Hb & Hp & Hr & Hl & Ho & Hnear).
  rewrite Hitem in Ho. inversion Ho; subst item. simpl.
  split; [|split].
  - exists i, b. repeat split; auto. rewrite Hp. f_equal. lia.
  - rewrite Hp in Hr. simpl in Hr. apply andb_true_iff in Hr as [H1 H2].
    apply Z.leb_le in H1, H2. lia.
  - intros hp ->. simpl in Hnear. destruct Hnear as (q & Hq & Hqi & _).
    apply list_elem_of_lookup in Hq as [j Hj].
    assert (Ej : (bookmark_map st).*2 !! j = Some hp)
      by (rewrite list_lookup_fmap, Hj; reflexivity).
    rewrite Hh in Ej. apply lookup_seq in Ej as [-> _]. simpl in *.
    destruct (Nat.lt_ge_cases j h) as [Hjh|Hjh]; [exact Hjh|].
    destruct (decide (j = h)) as [->|Hne].
    { rewrite Hm in Hj. inversion Hj. lia. }
    pose proof (sorted_rev_lookup _ (inv_sorted _ _ _ _ Inv) h j i q) as Hs.
    unfold keys in Hs. rewrite !list_lookup_fmap, Hm, Hj in Hs.
    specialize (Hs eq_refl eq_refl ltac:(lia)). lia.
Qed.

End OutlineWriterMore.

Lemma outline_is_well_formed_witness :
  let env := Environment true true 3 (fun _ _ _ _ => false) true true true
               (fun _ => false) in
  let bms := [Bookmark (u "A") (Some 1) 0; Bookmark (u "B") (Some 9) 1;
              Bookmark (u "C") (Some 3) 1] in
  let item := OutlineItem (u "C") 2 (Some 0%nat) in
  outline (outline_loop env bms (enumerate bms)) !! 1%nat = Some item
  /\ (exists i b, bms !! i = Some b
        /\ item_title item = title b
        /\ page b = Some (item_page item + 1))
  /\ 0 <= item_page item < num_pages env
  /\ (forall hp, item_parent item = Some hp -> (hp < 1)%nat).
Proof.
  intros env bms item.
  assert (H : outline (outline_loop env bms (enumerate bms)) !! 1%nat = Some item)
    by reflexivity.
  split; [exact H|]. exact (outline_is_well_formed env bms 1 item H).
Defined.

(** X16: a warning the console refuses ends the run.  When the library
    is present, a file is uploaded and read, and some entry has a page
    that is null or out of range and a warning whose [print] raises,
    the call does not return [True] and does not open the output file;
    the loop is left with the locals the entries before that one gave,
    so no entry at or after it is attached. *)
Theorem refused_warning_aborts (env : environment) (g : generator)
    (pre post : list bookmark) (b : bookmark) :
  PY_PDF2_AVAILABLE env = true ->
  truthy (uploaded_file g) = true ->
  reader_ok env = true ->
  bookmarks g = pre ++ b :: post ->
  page_in_range env (page b) = false ->
  print_raises env (WarnPage (title b) (page b)) = true ->
  let st := outline_loop env (bookmarks g) (enumerate (bookmarks g)) in
  let r := generate_pdf_with_bookmarks env g in
  returned r <> Ok true
  /\ written r = NotOpened
  /\ st = outline_loop env (bookmarks g) (enumerate pre)
  /\ (forall i h, (i, h) ∈ bookmark_map st -> (i < length pre)%nat)
  /\ (length (outline st) <= length pre)%nat.
Proof.
  intros Hlib Hfile Hread Hbms Hr Hp st r.
  destruct (outline_run_refused env (bookmarks g) pre post b Hbms Hr Hp) as [e Hrun].
  assert (Hst : st = outline_loop env (bookmarks g) (enumerate pre)).
  { subst st. unfold outline_loop at 1. rewrite Hrun. reflexivity. }
  assert (Er : r = on_exception env (printed st) e NotOpened).
  { subst r. unfold generate_pdf_with_bookmarks.
    rewrite Hlib, Hfile, Hread, Hrun. simpl.
    rewrite bool_decide_eq_false_2 by (rewrite Hbms; destruct pre; discriminate).
    rewrite <- Hst. reflexivity. }
  pose proof (outline_loop_prefix env (bookmarks g) pre (b :: post) Hbms) as Inv.
  rewrite <- Hst in Inv.
  assert (Hkeys : forall i h, (i, h) ∈ bookmark_map st -> (i < length pre)%nat).
  { intros i h Hin. pose proof (inv_below _ _ _ _ Inv) as B.
    rewrite Forall_forall in B. apply B, key_of_pair with h, Hin. }
  split; [|split; [|split; [exact Hst|split; [exact Hkeys|]]]].
  - rewrite Er. unfold on_exception, print_return_false.
    destruct (print_raises env (ErrGenerate e)); simpl; discriminate.
  - rewrite Er. unfold on_exception, print_return_false.
    destruct (print_raises env (ErrGenerate e)); reflexivity.
  - rewrite (inv_items _ _ _ _ Inv), <- (length_fmap fst).
    rewrite <- (length_seq (length pre) 0).
    apply submseteq_length, NoDup_submseteq.
    + rewrite <- (rev_involutive ((bookmark_map st).*1)).
      apply NoDup_ListNoDup, List.NoDup_rev, NoDup_ListNoDup, sorted_keys_NoDup.
      apply (inv_sorted _ _ _ _ Inv).
    + intros i Hi. apply list_elem_of_fmap in Hi as ([i' h] & -> & Hin).
      apply Hkeys in Hin. apply elem_of_seq. simpl. lia.
Qed.

Lemma refused_warning_aborts_witness :
  let env := Environment true true 3 (fun _ _ _ _ => false) true true true
               (fun m => match m with
                         | WarnPage t _ => existsb (N.eqb 55296) t
                         | _ => false
                         end) in
  let g := Generator (Some (u "book.pdf"))
             [Bookmark (u "A") (Some 1) 0; Bookmark [65; 55296]%N (Some 7) 0;
              Bookmark (u "C") (Some 2) 1] [] 0 [] in
  let st := outline_loop env (bookmarks g) (enumerate (bookmarks g)) in
  let r := generate_pdf_with_bookmarks env g in
  returned r <> Ok true
  /\ written r = NotOpened
  /\ (forall i h, (i, h) ∈ bookmark_map st -> (i < 1)%nat).
Proof.
  intros env g st r.
  pose proof (refused_warning_aborts env g [Bookmark (u "A") (Some 1) 0]
                [Bookmark (u "C") (Some 2) 1] (Bookmark [65; 55296]%N (Some 7) 0)
                eq_refl eq_refl eq_refl eq_refl eq_refl eq_refl)
    as (H1 & H2 & _ & H4 & _).
  exact (conj H1 (conj H2 H4)).
Defined.

Section CleanInput.
Variable env : environment.
Variable bms : list bookmark.
Hypothesis never_raises :
  forall items t p parent, item_raises env items t p parent = false.

Lemma clean_step (n : nat) (st : writer_state) (b : bookmark) (p : Z) :
  loop_invariant env bms n st ->
  page b = Some p -> page_in_range env (page b) = true -> 0 <= level b ->
  exists parent,
    outline_step env bms st (n, b)
      = (Ok tt,
         WriterState (outline st ++ [OutlineItem (title b) (p - 1) parent])
           (bookmark_map st ++ [(n, length (outline st))])
           (bookmarks_added st + 1) (printed st)).
Proof.
  intros Inv Hp Hr Hl.
  destruct (outline_step_cases env bms n st b Inv)
    as [[Hr' _]|[(p' & parent & Hp' & _ & _ & _ & ->)|(_ & Hl' & _)]];
    [congruence| |lia].
  assert (p' = p) as -> by congruence.
  exists parent.
  rewrite attach_fresh by (apply keys_lt_not_elem, (inv_below _ _ _ _ Inv)).
  rewrite never_raises. reflexivity.
Qed.

Lemma clean_loop (pre post : list bookmark) :
  bms = pre ++ post ->
  Forall (fun b => page_in_range env (page b) = true /\ 0 <= level b) pre ->
  (outline_run env bms (enumerate pre)).1 = Ok tt
  /\ let st := outline_loop env bms (enumerate pre) in
     printed st = []
     /\ keys (bookmark_map st) = seq 0 (length pre)
     /\ item_title <$> outline st = title <$> pre
     /\ (fun item => Some (item_page item + 1)) <$> outline st = page <$> pre.
Proof.
  revert post. induction pre as [|b pre IH] using rev_ind; intros post Hbms Hclean.
  - repeat split.
  - apply Forall_app in Hclean as [Hpre Hb]. apply Forall_singleton in Hb as [Hr Hl].
    assert (Hbms' : bms = pre ++ [b] ++ post) by (rewrite Hbms, <- app_assoc; reflexivity).
    destruct (IH _ Hbms' Hpre) as (Hflow & Hp & Hk & Ht & Hpg).
    pose proof (outline_loop_prefix env bms pre _ Hbms') as Inv.
    destruct (page b) as [p|] eqn:Ep; [|discriminate Hr].
    unfold outline_loop in *. rewrite enumerate_snoc, outline_run_snoc.
    destruct (outline_run env bms (enumerate pre)) as [flow st].
    cbn [fst snd] in *. subst flow.
    destruct (clean_step (length pre) st b p Inv Ep ltac:(rewrite Ep; exact Hr) Hl)
      as [parent Hstep].
    cbn [outline_round]. rewrite Hstep. cbv zeta. simpl.
    unfold keys in *. rewrite !fmap_app, length_app, Hk, Ht, Hpg, Hp. simpl.
    rewrite Nat.add_1_r, seq_S, Ep. repeat split. do 3 f_equal. lia.
Qed.

(** X18: when every entry has a page of the document and a non-negative
    level and the library does not raise, every entry is attached:
    nothing is reported, the count is the number of entries, and the
    outline has one item per entry, in order, with the entry's title and
    page. *)
Theorem clean_input_attaches_all :
  Forall (fun b => page_in_range env (page b) = true /\ 0 <= level b) bms ->
  let st := outline_loop env bms (enumerate bms) in
  printed st = []
  /\ bookmarks_added st = len bms
  /\ keys (bookmark_map st) = seq 0 (length bms)
  /\ item_title <$> outline st = title <$> bms
  /\ (fun item => Some (item_page item + 1)) <$> outline st = page <$> bms.
Proof.
  intros Hclean st.
  destruct (clean_loop bms [] ltac:(rewrite app_nil_r; reflexivity) Hclean)
    as (_ & Hp & Hk & Ht & Hpg).
  fold st in Hp, Hk, Ht, Hpg.
  split; [exact Hp|]. split; [|auto].
  pose proof (inv_count _ _ _ _ (outline_loop_invariant env bms)) as Hc. fold st in Hc.
  rewrite Hc. unfold len. f_equal.
  rewrite <- (length_fmap fst (bookmark_map st)).
  unfold keys in Hk. rewrite Hk. apply length_seq.
Qed.

End CleanInput.

Lemma clean_input_attaches_all_witness :
  let env := Environment true true 3 (fun _ _ _ _ => false) true true true
               (fun _ => false) in
  let bms := [Bookmark (u "A") (Some 1) 0; Bookmark (u "B") (Some 2) 2] in
  let st := outline_loop env bms (enumerate bms) in
  printed st = []
  /\ bookmarks_added st = len bms
  /\ keys (bookmark_map st) = seq 0 (length bms)
  /\ item_title <$> outline st = title <$> bms
  /\ (fun item => Some (item_page item + 1)) <$> outline st = page <$> bms.
Proof.
  intros env bms.
  apply (clean_input_attaches_all env bms (fun _ _ _ _ => eq_refl)).
  repeat constructor; simpl; lia.
Defined.

(** ** Moving a selection *)

Lemma transpose_involutive (i j k : nat) : transpose i j (transpose i j k) = k.
Proof. unfold transpose. repeat case_decide; congruence. Qed.

Lemma move_bookmark_skip (g : generator) (index : Z) (direction : py_str) :
  ~ (0 <= index < len (bookmarks g)) -> move_bookmark index direction g = (Ok tt, g).
Proof.
  intros Hout%in_bounds_false. unfold move_bookmark.
  erewrite bind_ok by reflexivity. unfold when. rewrite Hout. reflexivity.
Qed.

Lemma for_each_moves (direction : py_str) (indices : list Z) (g : generator) :
  length (bookmarks g) = length (original_bookmarks g) ->
  exists g' (f f' : nat -> nat),
    for_each indices (fun index => move_bookmark index direction) g = (Ok tt, g')
    /\ length (bookmarks g') = length (bookmarks g)
    /\ length (original_bookmarks g') = length (original_bookmarks g)
    /\ (forall k, f (f' k) = k /\ f' (f k) = k)
    /\ forall k, bookmarks g' !! k = bookmarks g !! f k
                 /\ original_bookmarks g' !! k = original_bookmarks g !! f k.
Proof.
  revert g. induction indices as [|i rest IH]; intros g Hlen.
  - exists g, id, id. repeat split.
  - simpl for_each. destruct (decide (0 <= i < len (bookmarks g))) as [Hi|Hi].
    + destruct (move_bookmark_ok g i direction Hlen Hi) as (g1 & E1 & Lb & Lo & P1).
      destruct (IH g1) as (g' & f & f' & E' & Lb' & Lo' & Inv & P'); [congruence|].
      set (t := transpose (Z.to_nat i)
                  (Z.to_nat (move_target i direction (len (bookmarks g))))).
      exists g', (fun k => t (f k)), (fun k => f' (t k)).
      split; [erewrite bind_ok by exact E1; exact E'|].
      split; [congruence|]. split; [congruence|]. split.
      * intros k. subst t. split.
        -- rewrite (proj1 (Inv _)). apply transpose_involutive.
        -- rewrite transpose_involutive. apply Inv.
      * intros k. destruct (P' k) as [Pb Po]. destruct (P1 (f k)) as [Qb Qo].
        rewrite Pb, Po. split; assumption.
    + rewrite (bind_ok _ _ g g tt) by (apply move_bookmark_skip; exact Hi).
      apply IH. exact Hlen.
Qed.

(** X19: on a store whose lists have equal length, the [/move_bookmark]
    request with any selection never raises; the lists keep their
    lengths, and both are rearranged by one and the same one-to-one
    exchange of positions. *)
Theorem post_move_bookmark_keeps_alignment (g : generator) (indices : list Z)
    (direction : py_str) :
  length (bookmarks g) = length (original_bookmarks g) ->
  exists g' (f f' : nat -> nat),
    post_move_bookmark indices direction g = (Ok tt, g')
    /\ length (bookmarks g') = length (bookmarks g)
    /\ length (original_bookmarks g') = length (original_bookmarks g)
    /\ (forall k, f (f' k) = k /\ f' (f k) = k)
    /\ forall k, bookmarks g' !! k = bookmarks g !! f k
                 /\ original_bookmarks g' !! k = original_bookmarks g !! f k.
Proof.
  intros Hlen. unfold post_move_bookmark.
  destruct (bool_decide (direction = u "up")); apply for_each_moves; exact Hlen.
Qed.

Lemma post_move_bookmark_keeps_alignment_witness :
  let g := Generator None
             [Bookmark (u "a") (Some 3) 0; Bookmark (u "b") None 1]
             [Bookmark (u "a") (Some 1) 0; Bookmark (u "b") None 1] 2 [] in
  exists g' (f f' : nat -> nat),
    post_move_bookmark [1; 0] (u "up") g = (Ok tt, g')
    /\ length (bookmarks g') = length (bookmarks g)
    /\ length (original_bookmarks g') = length (original_bookmarks g)
    /\ (forall k, f (f' k) = k /\ f' (f k) = k)
    /\ forall k, bookmarks g' !! k = bookmarks g !! f k
                 /\ original_bookmarks g' !! k = original_bookmarks g !! f k.
Proof.
  intros g. exact (post_move_bookmark_keeps_alignment g [1; 0] (u "up") eq_refl).
Defined.

(** ** The parser, continued *)

Lemma lstrip_idem (s : py_str) : lstrip (lstrip s) = lstrip s.
Proof.
  induction s as [|c s IH]; simpl; [reflexivity|].
  destruct (isspace c) eqn:E; [exact IH|]. simpl. rewrite E. reflexivity.
Qed.

Lemma lstrip_snoc (l : py_str) (c : N) :
  lstrip (l ++ [c]) = if bool_decide (lstrip l = []) then lstrip [c] else lstrip l ++ [c].
Proof.
  induction l as [|x l IH]; simpl; [reflexivity|].
  destruct (isspace x); [exact IH|]. reflexivity.
Qed.

Lemma rstrip_cons (c : N) (t : py_str) :
  rstrip (c :: t)
    = if bool_decide (rstrip t = []) then (if isspace c then [] else [c])
      else c :: rstrip t.
Proof.
  unfold rstrip. simpl. rewrite lstrip_snoc.
  destruct (decide (lstrip (rev t) = [])) as [E|E].
  - rewrite !bool_decide_eq_true_2; [|rewrite E; reflexivity|exact E].
    simpl. destruct (isspace c); reflexivity.
  - rewrite !bool_decide_eq_false_2; [|intros H; apply E|exact E].
    + rewrite rev_app_distr. reflexivity.
    + apply (f_equal (@rev N)) in H. rewrite rev_involutive in H. exact H.
Qed.

Lemma lstrip_fixed_head (c : N) (t : py_str) :
  lstrip (c :: t) = c :: t -> isspace c = false.
Proof.
  simpl. destruct (isspace c); [|reflexivity].
  intros H. pose proof (lstrip_length t) as L. rewrite H in L. simpl in L. lia.
Qed.

Lemma lstrip_rstrip (t : py_str) : lstrip t = t -> lstrip (rstrip t) = rstrip t.
Proof.
  destruct t as [|c t]; [reflexivity|]. intros H%lstrip_fixed_head.
  rewrite rstrip_cons. destruct (bool_decide (rstrip t = [])); rewrite ?H; simpl; rewrite H; reflexivity.
Qed.

Lemma lstrip_strip (s : py_str) : lstrip (strip s) = strip s.
Proof. unfold strip. apply lstrip_rstrip, lstrip_idem. Qed.

(** X20: the indentation the parser measures is always zero: the line
    was stripped before it is looked at, and cutting a marker strips the
    rest again, so the first method never sets a level. *)
Theorem indentation_is_never_seen (line : py_str) :
  let original_line := strip line in
  let original_title_part := Parser.cut_prefix original_line in
  len original_title_part - len (lstrip original_title_part) = 0.
Proof.
  intros original_line original_title_part.
  assert (H : lstrip original_title_part = original_title_part).
  { subst original_title_part. unfold Parser.cut_prefix.
    destruct (List.find _ _); apply lstrip_strip. }
  rewrite H. lia.
Qed.

Lemma int_of_digits_nonneg (s : py_str) : 0 <= int_of_digits s.
Proof.
  unfold int_of_digits.
  assert (H : forall acc, 0 <= acc ->
            0 <= List.fold_left (fun acc c => 10 * acc + default 0 (digit_value c)) s acc).
  { induction s as [|c s IH]; intros acc Hacc; simpl; [exact Hacc|].
    apply IH. unfold digit_value. destruct (List.find _ _); simpl; lia. }
  apply H. lia.
Qed.

Lemma count_char_nonneg (c : N) (s : py_str) : 0 <= count_char c s.
Proof. unfold count_char. lia. Qed.

(** Moves the outermost [let] of the term under [level] or [page] into
    the context. *)
Ltac name_let :=
  match goal with
  | |- context C [let x := ?v in @?body x] =>
      let y := fresh x in
      set (y := v);
      let g := context C [body y] in
      change g; cbv beta
  end.

(** [parse_line] up to the conversion of the page number. *)
Ltac open_parse_line page_num Epage :=
  cbv delta [Parser.parse_line] beta; repeat name_let;
  match goal with
  | |- context [match ?x with Ok _ => _ | Raise _ => _ end] =>
      destruct x as [page_num|?] eqn:Epage
  end.

Lemma py_int_result (s : py_str) :
  (len s <= int_max_str_digits -> py_int s = Ok (int_of_digits s))
  /\ (int_max_str_digits < len s -> py_int s = Raise ValueError).
Proof.
  unfold py_int, len.
  destruct (Z.ltb_spec int_max_str_digits (Z.of_nat (length s))); split; intros; lia || reflexivity.
Qed.

Lemma parse_line_returns (mapping : gmap Z Z) (line : py_str) :
  page_digits line <= int_max_str_digits -> exists b, Parser.parse_line mapping line = Ok b.
Proof.
  unfold page_digits. open_parse_line page_num Epage.
  - intros _. repeat name_let. eexists. reflexivity.
  - subst page_match line0 original_line.
    destruct (Re.search Parser.page_re _) as [m|]; [|discriminate Epage].
    intros Hshort. rewrite (proj1 (py_int_result _) Hshort) in Epage. discriminate Epage.
Qed.

Lemma parse_line_raises (mapping : gmap Z Z) (line : py_str) :
  int_max_str_digits < page_digits line ->
  Parser.parse_line mapping line = Raise ValueError.
Proof.
  unfold page_digits. open_parse_line page_num Epage.
  - subst page_match line0 original_line.
    destruct (Re.search Parser.page_re _) as [m|]; [|unfold int_max_str_digits; lia].
    intros Hlong. rewrite (proj2 (py_int_result _) Hlong) in Epage. discriminate Epage.
  - subst page_match line0 original_line.
    destruct (Re.search Parser.page_re _) as [m|]; [|discriminate Epage].
    intros Hlong. rewrite (proj2 (py_int_result _) Hlong) in Epage. congruence.
Qed.

Lemma parse_line_result (mapping : gmap Z Z) (line : py_str) :
  (page_digits line <= int_max_str_digits /\ exists b, Parser.parse_line mapping line = Ok b)
  \/ (int_max_str_digits < page_digits line
      /\ Parser.parse_line mapping line = Raise ValueError).
Proof.
  destruct (Z.le_gt_cases (page_digits line) int_max_str_digits) as [H|H].
  - left. split; [exact H | apply parse_line_returns, H].
  - right. split; [lia | apply parse_line_raises; lia].
Qed.

Lemma parse_line_level_nonneg (mapping : gmap Z Z) (line : py_str) (b : bookmark) :
  (forall m, Re.match_ Parser.markdown_re line = Some m ->
     0 <= default (len (Re.group m 1) - 1) (mapping !! len (Re.group m 1))) ->
  Parser.parse_line mapping line = Ok b -> 0 <= level b.
Proof.
  intros Hmap. open_parse_line page_num Epage; [|discriminate].
  repeat name_let. intros Hb. injection Hb as <-. simpl level.
  assert (H1 : 0 <= level1).
  { subst level1 level0. destruct (Z.ltb_spec 0 leading_spaces); [|lia].
    apply Z.min_glb; [lia|]. apply Z.div_pos; lia. }
  clearbody level1.
  assert (H2 : 0 <= level2).
  { subst level2. destruct (Re.search Parser.chapter_re title1); [|exact H1].
    cbv zeta. lia. }
  clearbody level2.
  assert (H3 : 0 <= level3).
  { subst level3 markdown_match original_line.
    destruct (Re.match_ Parser.markdown_re line) as [m|] eqn:Em; [|exact H2].
    cbv zeta. apply Hmap. reflexivity. }
  clearbody level3.
  assert (H4 : 0 <= level4)
    by (subst level4; destruct (Re.search Parser.chinese_numeral_re title2); lia).
  clearbody level4.
  assert (H5 : 0 <= level5)
    by (subst level5; destruct (Re.search Parser.roman_numeral_re title2); lia).
  clearbody level5.
  assert (H6 : 0 <= level6) by (subst level6; match goal with |- context [if ?c then _ else _] => destruct c end; lia).
  clearbody level6.
  assert (H7 : 0 <= level7) by (subst level7; match goal with |- context [if ?c then _ else _] => destruct c end; lia).
  clearbody level7.
  assert (H8 : 0 <= level8) by (subst level8; match goal with |- context [if ?c then _ else _] => destruct c end; lia).
  clearbody level8.
  subst level9. match goal with |- context [if ?c then _ else _] => destruct c end; lia.
Qed.

Lemma parse_line_page_nonneg (mapping : gmap Z Z) (line : py_str) (b : bookmark) (p : Z) :
  Parser.parse_line mapping line = Ok b -> page b = Some p -> 0 <= p.
Proof.
  open_parse_line page_num Epage; [|discriminate].
  repeat name_let. intros Hb. injection Hb as <-. simpl page. intros ->.
  destruct page_match as [m|]; [|discriminate Epage].
  unfold py_int in Epage.
  destruct (int_max_str_digits <? _); [discriminate Epage|].
  injection Epage as <-. apply int_of_digits_nonneg.
Qed.

Lemma parse_line_nonneg (mapping : gmap Z Z) (line : py_str) (b : bookmark) :
  (forall m, Re.match_ Parser.markdown_re line = Some m ->
     0 <= default (len (Re.group m 1) - 1) (mapping !! len (Re.group m 1))) ->
  Parser.parse_line mapping line = Ok b ->
  0 <= level b /\ forall p, page b = Some p -> 0 <= p.
Proof.
  intros Hmap Hb. split; [exact (parse_line_level_nonneg _ _ _ Hmap Hb)|].
  intros p. exact (parse_line_page_nonneg _ _ _ p Hb).
Qed.

Lemma markdown_levels_grow (lines : list py_str) :
  forall (acc : gset Z) (k : Z), k ∈ acc ->
    k ∈ List.fold_left
          (fun levels line =>
             let line := strip line in
             if bool_decide (line = []) then levels
             else match Re.match_ Parser.markdown_re line with
                  | Some m => {[ len (Re.group m 1) ]} ∪ levels
                  | None => levels
                  end) lines acc.
Proof.
  induction lines as [|l lines IH]; intros acc k Hk; simpl; [exact Hk|].
  apply IH. destruct (bool_decide _); [exact Hk|].
  destruct (Re.match_ _ _); [set_solver | exact Hk].
Qed.

Lemma markdown_levels_elem (lines : list py_str) (line : py_str) (m : Re.match_obj) :
  line ∈ lines -> strip line <> [] ->
  Re.match_ Parser.markdown_re (strip line) = Some m ->
  len (Re.group m 1) ∈ Parser.markdown_levels lines.
Proof.
  unfold Parser.markdown_levels. generalize (∅ : gset Z).
  induction lines as [|l lines IH]; intros acc Hin Hne Hm.
  - apply elem_of_nil in Hin as [].
  - simpl. apply elem_of_cons in Hin as [<-|Hin].
    + apply markdown_levels_grow.
      rewrite bool_decide_eq_false_2 by exact Hne. rewrite Hm. set_solver.
    + apply IH; assumption.
Qed.

Lemma level_mapping_lookup (levels : gset Z) (k : Z) :
  k ∈ levels -> exists v, Parser.level_mapping levels !! k = Some v /\ 0 <= v.
Proof.
  intros Hk. unfold Parser.level_mapping.
  set (sorted := merge_sort Z.le (elements levels)).
  assert (Hs : k ∈ sorted).
  { subst sorted. rewrite merge_sort_Permutation. apply elem_of_elements. exact Hk. }
  destruct (list_to_map (imap (fun idx level => (level, Z.of_nat idx)) sorted) !! k)
    as [v|] eqn:E.
  - exists v. split; [reflexivity|].
    apply elem_of_list_to_map_2 in E.
    apply list_elem_of_lookup in E as [i Hi].
    rewrite list_lookup_imap in Hi. destruct (sorted !! i); [|discriminate Hi].
    simpl in Hi. inversion Hi. lia.
  - exfalso. apply not_elem_of_list_to_map in E. apply E.
    apply list_elem_of_lookup in Hs as [i Hi].
    apply list_elem_of_fmap. exists (k, Z.of_nat i). split; [reflexivity|].
    apply list_elem_of_lookup. exists i. rewrite list_lookup_imap, Hi. reflexivity.
Qed.

(** *** The second loop *)

Lemma parse_loop_entries (mapping : gmap Z Z) (P : bookmark -> Prop) (lines : list py_str) :
  (forall line b, line ∈ lines -> strip line <> [] ->
     Parser.parse_line mapping (strip line) = Ok b -> P b) ->
  forall acc entries, Forall P acc ->
    Parser.parse_loop mapping lines acc = Ok entries -> Forall P entries.
Proof.
  induction lines as [|l lines IH]; intros Hall acc entries Hacc; simpl.
  - intros H. injection H as <-. exact Hacc.
  - assert (Hrest : forall line b, line ∈ lines -> strip line <> [] ->
              Parser.parse_line mapping (strip line) = Ok b -> P b)
      by (intros line b Hin; apply Hall; right; exact Hin).
    destruct (decide (strip l = [])) as [E|E].
    + rewrite bool_decide_eq_true_2 by exact E. apply IH; assumption.
    + rewrite bool_decide_eq_false_2 by exact E.
      destruct (Parser.parse_line mapping (strip l)) as [b|e] eqn:Eb; [|discriminate].
      apply IH; [exact Hrest|].
      apply Forall_app. split; [exact Hacc|]. constructor; [|constructor].
      apply (Hall l b); [left | exact E | exact Eb].
Qed.

Lemma parse_loop_returns (mapping : gmap Z Z) (lines : list py_str) :
  Forall (fun line => page_digits (strip line) <= int_max_str_digits) lines ->
  forall acc, exists entries,
    Parser.parse_loop mapping lines acc = Ok (acc ++ entries)
    /\ Forall2 (fun line b => Parser.parse_line mapping line = Ok b)
         (filter (fun line => line <> []) (strip <$> lines)) entries.
Proof.
  induction lines as [|l lines IH]; intros Hshort acc; simpl.
  - exists []. rewrite app_nil_r. split; [reflexivity | constructor].
  - apply Forall_cons in Hshort as [Hl Hshort].
    change (strip <$> l :: lines) with (strip l :: (strip <$> lines)).
    destruct (decide (strip l = [])) as [E|E].
    + rewrite bool_decide_eq_true_2 by exact E.
      rewrite filter_cons_False by (intros H; apply H, E).
      apply IH, Hshort.
    + rewrite bool_decide_eq_false_2 by exact E.
      rewrite filter_cons_True by exact E.
      destruct (parse_line_returns mapping (strip l) Hl) as [b Eb]. rewrite Eb.
      destruct (IH Hshort (acc ++ [b])) as (entries & Hrun & Hall).
      exists (b :: entries). rewrite Hrun, <- app_assoc.
      split; [reflexivity|]. constructor; assumption.
Qed.

Lemma page_digits_blank : page_digits [] = 0.
Proof. reflexivity. Qed.

Lemma parse_loop_raises (mapping : gmap Z Z) (lines : list py_str) :
  Exists (fun line => int_max_str_digits < page_digits (strip line)) lines ->
  forall acc, Parser.parse_loop mapping lines acc = Raise ValueError.
Proof.
  induction lines as [|l lines IH]; intros Hlong acc; simpl.
  - apply Exists_nil in Hlong as [].
  - apply Exists_cons in Hlong.
    destruct (decide (strip l = [])) as [E|E].
    + rewrite bool_decide_eq_true_2 by exact E.
      destruct Hlong as [Hl|Hrest]; [|apply IH, Hrest].
      rewrite E, page_digits_blank in Hl. unfold int_max_str_digits in Hl. lia.
    + rewrite bool_decide_eq_false_2 by exact E.
      destruct (parse_line_result mapping (strip l)) as [[Hshort [b Eb]]|[_ Er]];
        rewrite ?Eb, ?Er; [|reflexivity].
      destruct Hlong as [Hl|Hrest]; [lia | apply IH, Hrest].
Qed.

(** X21: [parse_toc_text] on any text and any state.  When no line ends
    in a run of more than 4300 digits it returns, and every entry has a
    level of at least 0 and, when it has a page, a page of at least 0.
    When a line does, the call raises [ValueError] ([int] refuses the
    run): the snapshot has been logged by then, and nothing else of the
    object has changed. *)
Theorem parsed_levels_and_pages_nonnegative (toc_text : py_str) (g : generator) :
  let lines := split_on LF (strip toc_text) in
  (Forall (fun line => page_digits (strip line) <= int_max_str_digits) lines ->
   exists entries g',
     parse_toc_text toc_text g = (Ok entries, g')
     /\ Forall (fun b => 0 <= level b /\ forall p, page b = Some p -> 0 <= p) entries)
  /\ (Exists (fun line => int_max_str_digits < page_digits (strip line)) lines ->
      parse_toc_text toc_text g = (Raise ValueError, (save_state g).2)).
Proof.
  intros lines. split.
  - intros Hshort.
    destruct (parse_loop_returns
                (Parser.level_mapping (Parser.markdown_levels lines)) lines Hshort [])
      as (entries & Hrun & _).
    exists entries, (with_original entries (save_state g).2).
    split.
    + unfold parse_toc_text, Parser.parse_lines. cbv zeta. fold lines.
      unfold bind at 1. simpl. rewrite Hrun. reflexivity.
    + refine (parse_loop_entries _ _ lines _ [] entries (Forall_nil_2 _) Hrun).
      intros line b Hin Hne Hb. apply (parse_line_nonneg _ _ _) with (2 := Hb).
      intros m Hm.
      destruct (level_mapping_lookup _ _ (markdown_levels_elem _ line m Hin Hne Hm))
        as (v & -> & Hv).
      exact Hv.
  - intros Hlong.
    unfold parse_toc_text, Parser.parse_lines. cbv zeta. fold lines.
    unfold bind at 1. simpl.
    rewrite (parse_loop_raises _ lines Hlong). reflexivity.
Qed.

(** ** The matcher finds only what the pattern matches *)

Lemma run_sound (r : Re.regex) :
  forall s k m, Re.run r s k = Some m ->
  exists s', matches r s s' /\ k s' = Some m.
Proof.
  induction r as [|p|a IHa b IHb|a IHa b IHb|lo hi a IHa|n a IHa| |]; intros s k m H.
  - exists s. split; [constructor | exact H].
  - simpl in H. destruct (Re.rest s) as [|c t] eqn:Er; [discriminate H|].
    destruct (p c) eqn:Ep; [|discriminate H].
    eexists. split; [econstructor; eassumption | exact H].
  - simpl in H. apply IHa in H as (s1 & Ha & H). apply IHb in H as (s2 & Hb & H).
    exists s2. split; [econstructor; eassumption | exact H].
  - simpl in H. destruct (Re.run a s k) as [m'|] eqn:Ea.
    + inversion H; subst m'. apply IHa in Ea as (s' & Ha & Hk).
      exists s'. split; [apply matches_Alt_l; exact Ha | exact Hk].
    + apply IHb in H as (s' & Hb & Hk).
      exists s'. split; [apply matches_Alt_r; exact Hb | exact Hk].
  - simpl in H.
    assert (Hc : within 0 hi) by (destruct hi; simpl; lia).
    assert (Goal : exists n s', reps (matches a) n s s' /\ (lo <= 0 + n)%nat
                     /\ within (0 + n) hi /\ k s' = Some m).
    { revert H Hc. generalize (length (Re.rest s)) as fuel.
      generalize 0%nat as cnt. revert s.
      intros s cnt fuel. revert s cnt.
      induction fuel as [|fuel IH]; intros s cnt H Hc.
      - destruct (Nat.leb_spec lo cnt); [|discriminate H].
        exists 0%nat, s. rewrite Nat.add_0_r. repeat split; auto. constructor.
      - destruct (Re.below cnt hi) eqn:Eb.
        + destruct (Re.run a s _) as [m'|] eqn:Ea.
          * inversion H; subst m'. apply IHa in Ea as (s1 & Ha & Hk).
            destruct (_ <? _)%nat; [|discriminate Hk].
            apply IH in Hk as (n & s' & Hr & Hlo & Hhi & Hk).
            -- exists (S n), s'. rewrite Nat.add_succ_r.
               repeat split; auto. econstructor; eassumption.
            -- destruct hi as [h|]; simpl in *; [|exact I].
               apply Nat.ltb_lt in Eb. lia.
          * destruct (Nat.leb_spec lo cnt); [|discriminate H].
            exists 0%nat, s. rewrite Nat.add_0_r. repeat split; auto. constructor.
        + destruct (Nat.leb_spec lo cnt); [|discriminate H].
          exists 0%nat, s. rewrite Nat.add_0_r. repeat split; auto. constructor. }
    destruct Goal as (n & s' & Hr & Hlo & Hhi & Hk).
    exists s'. split; [econstructor; eassumption | exact Hk].
  - simpl in H. apply IHa in H as (s' & Ha & Hk).
    eexists. split; [constructor; exact Ha | exact Hk].
  - simpl in H. destruct (Nat.eqb_spec (Re.pos s) 0); [|discriminate H].
    exists s. split; [constructor; assumption | exact H].
  - simpl in H. destruct (Re.rest s) as [|c [|c' t]] eqn:Er; try discriminate H.
    + exists s. split; [constructor; auto | exact H].
    + destruct (N.eqb_spec c LF) as [->|]; [|discriminate H].
      exists s. split; [constructor; auto | exact H].
Qed.

Lemma reps_class (p : N -> bool) (n : nat) (s s' : Re.mstate) :
  reps (matches (Re.Cls p)) n s s' ->
  Re.caps s' = Re.caps s /\ Re.pos s' = (Re.pos s + n)%nat
  /\ (n <= length (Re.rest s))%nat.
Proof.
  induction 1 as [s|n s s1 s2 H1 _ IH].
  - repeat split; lia.
  - inversion H1; subst. simpl in IH. destruct IH as (Hc & Hp & Hl).
    rewrite Hc, Hp. match goal with E : Re.rest s = _ |- _ => rewrite E end.
    simpl. repeat split; lia.
Qed.

(** A Markdown heading match has between one and four hashes in its
    first group. *)
Lemma markdown_hashes (line : py_str) (m : Re.match_obj) :
  Re.match_ Parser.markdown_re line = Some m ->
  1 <= len (Re.group m 1) <= 4.
Proof.
  unfold Re.match_, Re.match_at. rewrite drop_0.
  destruct (Re.run _ _ _) as [sf|] eqn:Hrun; [|discriminate].
  intros Hm. inversion Hm; subst m. clear Hm.
  apply run_sound in Hrun as (s' & Hmatch & Hk). inversion Hk; subst s'. clear Hk.
  unfold Parser.markdown_re, Re.between, Re.plus in Hmatch.
  inversion Hmatch as [| |? ? ? s1 ? Hbol Hrest| | | | | |]; subst. clear Hmatch.
  inversion Hbol; subst. clear Hbol.
  inversion Hrest as [| |? ? ? s2 ? Hg1 Hrest2| | | | | |]; subst. clear Hrest.
  inversion Hg1 as [| | | | | |? ? ? sa Hhash| |]; subst. clear Hg1.
  inversion Hhash as [| | | | |? ? ? n ? ? Hreps Hlo Hhi| | |]; subst. clear Hhash.
  apply reps_class in Hreps as (Hc & Hp & Hl). simpl in Hc, Hp, Hl, Hhi.
  inversion Hrest2 as [| |? ? ? s3 ? Hsp Hg2| | | | | |]; subst. clear Hrest2.
  inversion Hsp as [| | | | |? ? ? n2 ? ? Hreps2 _ _| | |]; subst. clear Hsp.
  apply reps_class in Hreps2 as (Hc2 & _ & _). simpl in Hc2.
  inversion Hg2 as [| | | | | |? ? ? sb Hdot| |]; subst. clear Hg2.
  inversion Hdot as [| | | | |? ? ? n3 ? ? Hreps3 _ _| | |]; subst. clear Hdot.
  apply reps_class in Hreps3 as (Hc3 & _ & _).
  unfold Re.group. simpl. rewrite Hc3, Hc2. simpl.
  unfold slice, len. rewrite drop_0, length_take. lia.
Qed.

Lemma markdown_levels_range (lines : list py_str) (k : Z) :
  k ∈ Parser.markdown_levels lines -> 1 <= k <= 4.
Proof.
  unfold Parser.markdown_levels.
  assert (H : forall acc : gset Z, (forall j, j ∈ acc -> 1 <= j <= 4) ->
    forall j, j ∈ List.fold_left
      (fun levels line =>
         let line := strip line in
         if bool_decide (line = []) then levels
         else match Re.match_ Parser.markdown_re line with
              | Some m => {[ len (Re.group m 1) ]} ∪ levels
              | None => levels
              end) lines acc -> 1 <= j <= 4).
  { induction lines as [|l lines IH]; intros acc Hacc j; simpl; [apply Hacc|].
    apply IH. destruct (bool_decide _); [exact Hacc|].
    destruct (Re.match_ _ _) as [m|] eqn:Em; [|exact Hacc].
    intros i Hi. apply elem_of_union in Hi as [Hi|Hi]; [|auto].
    apply elem_of_singleton in Hi. subst i. eapply markdown_hashes. exact Em. }
  apply H. intros j Hj. apply not_elem_of_empty in Hj as [].
Qed.

Lemma level_mapping_bound (levels : gset Z) (k v : Z) :
  (forall j, j ∈ levels -> 1 <= j <= 4) ->
  Parser.level_mapping levels !! k = Some v -> 0 <= v <= 3.
Proof.
  intros Hrange E. unfold Parser.level_mapping in E.
  apply elem_of_list_to_map_2, list_elem_of_lookup in E as [i Hi].
  rewrite list_lookup_imap in Hi.
  destruct (merge_sort Z.le (elements levels) !! i) as [x|] eqn:Ex; [|discriminate Hi].
  simpl in Hi. inversion Hi; subst. apply lookup_lt_Some in Ex.
  rewrite merge_sort_Permutation in Ex.
  assert (Hsub : levels ⊆ ({[1; 2; 3; 4]} : gset Z)).
  { intros j Hj. specialize (Hrange j Hj).
    assert (Hj4 : j = 1 \/ j = 2 \/ j = 3 \/ j = 4) by lia.
    destruct Hj4 as [Hj4 | [Hj4 | [Hj4 | Hj4]]]; subst j;
      rewrite !elem_of_union, !elem_of_singleton; tauto. }
  apply subseteq_size in Hsub.
  assert (Hfour : size ({[1; 2; 3; 4]} : gset Z) = 4%nat) by reflexivity.
  change (length (elements levels)) with (size levels) in Ex. lia.
Qed.

Lemma parse_line_markdown_le (mapping : gmap Z Z) (line : py_str)
    (m : Re.match_obj) (v : Z) (b : bookmark) :
  Re.match_ Parser.markdown_re line = Some m ->
  mapping !! len (Re.group m 1) = Some v -> v <= 3 ->
  Parser.parse_line mapping line = Ok b -> level b <= 3.
Proof.
  intros Hm Hv Hrange. open_parse_line page_num Epage; [|discriminate].
  repeat name_let. intros Hb. injection Hb as <-. simpl level.
  assert (H3 : level3 <= 3).
  { subst level3 markdown_match original_line. rewrite Hm. cbv zeta. rewrite Hv. exact Hrange. }
  clearbody level3.
  assert (H4 : level4 <= 3)
    by (subst level4; destruct (Re.search Parser.chinese_numeral_re title2); lia).
  clearbody level4.
  assert (H5 : level5 <= 3)
    by (subst level5; destruct (Re.search Parser.roman_numeral_re title2); lia).
  clearbody level5.
  assert (H6 : level6 <= 3)
    by (subst level6; match goal with |- context [if ?c then _ else _] => destruct c end; lia).
  clearbody level6.
  assert (H7 : level7 <= 3)
    by (subst level7; match goal with |- context [if ?c then _ else _] => destruct c end; lia).
  clearbody level7.
  assert (H8 : level8 <= 3)
    by (subst level8; match goal with |- context [if ?c then _ else _] => destruct c end; lia).
  clearbody level8.
  subst level9. match goal with |- context [if ?c then _ else _] => destruct c end; lia.
Qed.

Lemma parse_line_markdown_level (mapping : gmap Z Z) (line : py_str)
    (m : Re.match_obj) (v : Z) (b : bookmark) :
  Re.match_ Parser.markdown_re line = Some m ->
  mapping !! len (Re.group m 1) = Some v -> 0 <= v <= 3 ->
  Parser.parse_line mapping line = Ok b -> 0 <= level b <= 3.
Proof.
  intros Hm Hv Hrange Hb. split.
  - apply (parse_line_level_nonneg mapping line b); [|exact Hb]. intros m' Hm'.
    rewrite Hm in Hm'. inversion Hm'; subst m'. rewrite Hv. simpl. lia.
  - apply (parse_line_markdown_le mapping line m v b Hm Hv); [lia | exact Hb].
Qed.

(** X22: for every text, a line that is a Markdown heading (one to four
    hashes, white space, text) either is refused with [ValueError] (it
    ends in a run of more than 4300 digits) or gives an entry with a
    level between 0 and 3: the level is the rank of the line's hash count
    among the at most four counts seen, and the keyword rules keep it
    within the range. *)
Theorem markdown_lines_stay_in_range (toc_text line : py_str) :
  let lines := split_on LF (strip toc_text) in
  let mapping := Parser.level_mapping (Parser.markdown_levels lines) in
  line ∈ lines -> strip line <> [] ->
  is_Some (Re.match_ Parser.markdown_re (strip line)) ->
  match Parser.parse_line mapping (strip line) with
  | Ok b => 0 <= level b <= 3
  | Raise e => e = ValueError /\ int_max_str_digits < page_digits (strip line)
  end.
Proof.
  intros lines mapping Hin Hne [m Hm].
  destruct (parse_line_result mapping (strip line)) as [[_ [b Eb]]|[Hlong Er]].
  - rewrite Eb.
    pose proof (markdown_levels_elem lines line m Hin Hne Hm) as Hk.
    destruct (level_mapping_lookup _ _ Hk) as (v & Hv & _).
    apply (parse_line_markdown_level mapping (strip line) m v b Hm Hv); [|exact Eb].
    apply (level_mapping_bound _ _ _ (markdown_levels_range lines) Hv).
  - rewrite Er. split; [reflexivity | exact Hlong].
Qed.

Lemma markdown_lines_stay_in_range_witness :
  let toc_text := u "# Title 5" ++ [LF] ++ u "#### Deep 节 6" in
  let line := u "#### Deep 节 6" in
  let lines := split_on LF (strip toc_text) in
  let mapping := Parser.level_mapping (Parser.markdown_levels lines) in
  match Parser.parse_line mapping (strip line) with
  | Ok b => 0 <= level b <= 3
  | Raise e => e = ValueError /\ int_max_str_digits < page_digits (strip line)
  end.
Proof.
  intros toc_text line.
  apply (markdown_lines_stay_in_range toc_text line).
  - right. left.
  - vm_compute. discriminate.
  - vm_compute. eexists. reflexivity.
Defined.

(** ** What parsing leaves behind *)

(** X23: when no line of the text ends in a run of more than 4300
    digits, [parse_toc_text] returns one entry for each line of the
    stripped text that is not blank, in the order of the lines, stores
    that list as [original_bookmarks] and logs the state it found as the
    newest snapshot, and it leaves [bookmarks], [offset] and the uploaded
    file as they were: the parsed entries are not the edited list until
    the caller assigns them. *)
Theorem parse_toc_text_effect (toc_text : py_str) (g : generator) :
  let lines := split_on LF (strip toc_text) in
  let mapping := Parser.level_mapping (Parser.markdown_levels lines) in
  Forall (fun line => page_digits (strip line) <= int_max_str_digits) lines ->
  exists entries g',
    parse_toc_text toc_text g = (Ok entries, g')
    /\ Forall2 (fun line b => Parser.parse_line mapping line = Ok b)
         (filter (fun line => line <> []) (strip <$> lines)) entries
    /\ original_bookmarks g' = entries
    /\ bookmarks g' = bookmarks g
    /\ offset g' = offset g
    /\ uploaded_file g' = uploaded_file g
    /\ last (history g')
       = Some (Snapshot (bookmarks g) (original_bookmarks g) (offset g)).
Proof.
  intros lines mapping Hshort.
  destruct (parse_loop_returns mapping lines Hshort []) as (entries & Hrun & Hall).
  exists entries, (with_original entries (save_state g).2).
  split; [|split; [exact Hall|]].
  - unfold parse_toc_text, Parser.parse_lines. cbv zeta. fold lines. fold mapping.
    unfold bind at 1. simpl. rewrite Hrun. reflexivity.
  - repeat split.
    unfold save_state, modify. simpl.
    rewrite deque_append_snoc. apply last_snoc.
Qed.

Lemma parse_toc_text_effect_witness :
  let toc_text := u "第一章 绪论 1" ++ [LF; LF] ++ u "1.1 背景....3" in
  exists entries g',
    parse_toc_text toc_text (Generator None [] [] 0 []) = (Ok entries, g')
    /\ length entries = 2%nat
    /\ original_bookmarks g' = entries
    /\ bookmarks g' = [].
Proof.
  intros toc_text.
  destruct (parse_toc_text_effect toc_text (Generator None [] [] 0 []))
    as (entries & g' & Hrun & Hall & Horig & Hbms & _).
  - match goal with
    | |- Forall ?P ?l => let l' := eval vm_compute in l in change (Forall P l')
    end.
    repeat (constructor; [vm_compute; discriminate|]). constructor.
  - exists entries, g'. split; [exact Hrun|].
    split; [|split; [exact Horig | exact Hbms]].
    apply Forall2_length in Hall. rewrite <- Hall. vm_compute. reflexivity.
Defined.
